(** * rdtools: energy normalization (rdtools/normalization.py)

    A shallow embedding of [pvwatts_dc_power], [normalize_with_pvwatts],
    [sapm_dc_power] and [normalize_with_sapm], together with the fragment of
    pandas they call: time-indexed series, scalar broadcasting, index
    alignment of two series, frequency resolution and resample-and-sum.

    The Python code is polymorphic in its numbers.  The embedding is written
    once over a [Numeric] carrier and is read at two instances: IEEE binary64
    (what pandas computes with) and exact rationals with an undefined element
    (the arithmetic the PVWatts equations are written in). *)

From Stdlib Require Import ZArith List String Bool Lia.
From Stdlib Require Import Sorted.
From Stdlib Require Import Floats.
From Stdlib Require Import QArith Qcanon.
Import ListNotations.

Local Open Scope Z_scope.

(** ** Numbers *)

(** The operations the module applies to numbers: [+ - * /], the integer
    literals it writes ([1], and the defaults [1000] and [25]), and the
    missing-value marker pandas fills in when it aligns two indexes. *)
Class Numeric (num : Type) : Type := {
  nadd : num -> num -> num;
  nsub : num -> num -> num;
  nmul : num -> num -> num;
  ndiv : num -> num -> num;
  of_int : Z -> num;
  nan : num;
  isnan : num -> bool
}.

(** What alignment relies on: the marker is recognised, and a quotient with a
    missing operand is missing. *)
Class NanAbsorbing (num : Type) `{Numeric num} : Prop := {
  isnan_nan : isnan nan = true;
  ndiv_nan_l : forall x, ndiv nan x = nan;
  ndiv_nan_r : forall x, ndiv x nan = nan
}.

Declare Scope num_scope.
Delimit Scope num_scope with num.
Infix "+" := nadd : num_scope.
Infix "-" := nsub : num_scope.
Infix "*" := nmul : num_scope.
Infix "/" := ndiv : num_scope.

(** *** binary64 *)

Definition float_of_int (z : Z) : float :=
  match z with
  | Z0 => PrimFloat.zero
  | Zpos _ => PrimFloat.of_uint63 (Uint63.of_Z z)
  | Zneg _ => PrimFloat.opp (PrimFloat.of_uint63 (Uint63.of_Z (- z)))
  end.

#[export] Instance float64 : Numeric float := {
  nadd := PrimFloat.add;
  nsub := PrimFloat.sub;
  nmul := PrimFloat.mul;
  ndiv := PrimFloat.div;
  of_int := float_of_int;
  nan := PrimFloat.nan;
  isnan := PrimFloat.is_nan
}.

(** *** Exact rationals, with [None] for an undefined value

    The arithmetic the PVWatts equations are written in.  A quotient by zero
    is undefined here, where Python's exact numbers raise and binary64
    answers an infinity: a statement in this arithmetic that says a call
    returns carries the hypothesis that no divisor is zero, and the others
    relate two runs that divide by zero alike. *)

Definition exact : Type := option Qc.

Definition exact_lift (f : Qc -> Qc -> Qc) (x y : exact) : exact :=
  match x, y with
  | Some a, Some b => Some (f a b)
  | _, _ => None
  end.

Definition exact_div (x y : exact) : exact :=
  match x, y with
  | Some a, Some b => if Qc_eq_dec b (Q2Qc 0) then None else Some (Qcdiv a b)
  | _, _ => None
  end.

Definition exact_isnan (x : exact) : bool :=
  match x with Some _ => false | None => true end.

#[export] Instance exact_numeric : Numeric exact := {
  nadd := exact_lift Qcplus;
  nsub := exact_lift Qcminus;
  nmul := exact_lift Qcmult;
  ndiv := exact_div;
  of_int := fun z => Some (Q2Qc (inject_Z z));
  nan := None;
  isnan := exact_isnan
}.

(** ** Errors *)

(** The Python exceptions that can leave the module. *)
Inductive Error : Type :=
| ValueError (msg : string)
| AttributeError (msg : string)
| KeyError (key : string).

Definition Result (A : Type) : Type := (Error + A)%type.

Definition ok {A} (x : A) : Result A := inr x.
Definition raise {A} (e : Error) : Result A := inl e.

Definition rbind {A B} (c : Result A) (k : A -> Result B) : Result B :=
  match c with
  | inl e => inl e
  | inr x => k x
  end.

Definition is_ok {A} (c : Result A) : bool :=
  match c with inl _ => false | inr _ => true end.

(** ** pandas: indexes and series *)

(** Timestamps are seconds since the epoch. *)
Definition Timestamp : Type := Z.

Definition day : Z := 86400.

(** A fixed-period offset ([pd.offsets.Tick]: ['D'], ['H'], ['15T'], ...),
    by its period in seconds, which is positive.  The other offsets pandas
    has are outside the model and nothing below is stated about them:
    anchored and calendar offsets (['W-THU'], ['MS'], business days), whose
    bins are not intervals of one length, and negative ticks (['-1D'], as
    inferred on a decreasing index), with which resampling raises. *)
Inductive Freq : Type :=
| Tick (period : positive).

Definition period (f : Freq) : Z := match f with Tick p => Zpos p end.

Record DatetimeIndex : Type := mkIndex {
  stamps : list Timestamp;
  freq : option Freq
}.

Section Series.

Context {num : Type} `{N : Numeric num}.

(** A series is its rows in order; [sfreq] is the [freq] attribute of its
    index. *)
Record Series : Type := mkSeries {
  rows : list (Timestamp * num);
  sfreq : option Freq
}.

Definition index (s : Series) : DatetimeIndex :=
  {| stamps := map fst (rows s); freq := sfreq s |}.

Definition values (s : Series) : list num := map snd (rows s).

(** [s[t]] by label, the missing-value marker where [t] is not a label. *)
Fixpoint lookup (t : Timestamp) (l : list (Timestamp * num)) : num :=
  match l with
  | [] => nan
  | (u, x) :: l' => if Z.eqb t u then x else lookup t l'
  end.

Definition at_ (s : Series) (t : Timestamp) : num := lookup t (rows s).

(** Broadcasting a scalar operation over a series keeps the index. *)
Definition smap (f : num -> num) (s : Series) : Series :=
  {| rows := map (fun r => (fst r, f (snd r))) (rows s); sfreq := sfreq s |}.

(** [Index.equals]: same labels in the same order. *)
Fixpoint index_equals (a b : list Timestamp) : bool :=
  match a, b with
  | [], [] => true
  | x :: a', y :: b' => Z.eqb x y && index_equals a' b'
  | _, _ => false
  end.

(** The outer join of two indexes: their labels, each once, in increasing
    order. *)
Fixpoint insert_label (t : Timestamp) (l : list Timestamp) : list Timestamp :=
  match l with
  | [] => [t]
  | u :: l' =>
      if Z.ltb t u then t :: l
      else if Z.eqb t u then l
      else u :: insert_label t l'
  end.

Definition union_index (a b : list Timestamp) : list Timestamp :=
  fold_right insert_label [] (a ++ b).

Fixpoint zip_with (f : num -> num -> num)
    (a b : list (Timestamp * num)) : list (Timestamp * num) :=
  match a, b with
  | (t, x) :: a', (_, y) :: b' => (t, f x y) :: zip_with f a' b'
  | _, _ => []
  end.

(** [left op right] for two series ([Series._arith_method]): operands with
    equal indexes are combined row by row; otherwise both are re-indexed on
    the outer join of their indexes, absent rows filled with the
    missing-value marker, and then combined.  The join is modelled for
    indexes without repeated labels.  The [freq] attribute of a joined index
    is not modelled: pandas may find one for it, [sfreq] is [None] here, and
    nothing below reads the [sfreq] of a joined result. *)
Definition series_binop (f : num -> num -> num) (a b : Series) : Series :=
  if index_equals (stamps (index a)) (stamps (index b)) then
    {| rows := zip_with f (rows a) (rows b); sfreq := sfreq a |}
  else
    {| rows := map (fun t => (t, f (at_ a t) (at_ b t)))
                   (union_index (stamps (index a)) (stamps (index b)));
       sfreq := None |}.

(** ** pandas: resample-and-sum *)

Definition list_min (x : Z) (l : list Z) : Z := fold_left Z.min l x.
Definition list_max (x : Z) (l : list Z) : Z := fold_left Z.max l x.

(** The left edge of the bin that holds [t]: bins have width [p], are closed
    on the left, and are anchored at midnight of the first day of the data
    ([origin='start_day']). *)
Definition bin_of (origin p : Z) (t : Timestamp) : Timestamp :=
  origin + p * ((t - origin) / p).

(** The sum of a bin skips missing values and starts from [0]; an empty bin
    sums to [0].  Rows are added in the order of the series, which is time
    order on an increasing index.  In binary64 pandas adds with a
    compensation that can change the last bits of the sum, differently from
    one version to the next: what is stated below about a binary64 sum is
    either stated at sums that are exact or does not depend on its bits. *)
Definition sum_skipna (l : list num) : num :=
  fold_left nadd (filter (fun x => negb (isnan x)) l) (of_int 0).

Definition bin_values (b p : Z) (l : list (Timestamp * num)) : list num :=
  map snd (filter (fun r => Z.leb b (fst r) && Z.ltb (fst r) (b + p)) l).

Definition bin_labels (lo hi p : Z) : list Timestamp :=
  map (fun i => lo + p * Z.of_nat i) (seq 0 (Z.to_nat ((hi - lo) / p + 1))).

(** [s.resample(freq).sum()] for the offsets of [Freq].  The bins run from
    the one holding the earliest row to the one holding the latest, every bin
    in between included, each labelled by its left edge.  [resample(None)]
    raises: the grouper reads [freq.rule_code] of the offset it was given. *)
Definition resample_sum (s : Series) (f : option Freq) : Result Series :=
  match f with
  | None =>
      raise (AttributeError "'NoneType' object has no attribute 'rule_code'")
  | Some fr =>
      let p := period fr in
      match rows s with
      | [] => ok {| rows := []; sfreq := Some fr |}
      | (t0, _) :: _ =>
          let ts := map fst (rows s) in
          let first := list_min t0 ts in
          let last := list_max t0 ts in
          let origin := day * (first / day) in
          let lo := bin_of origin p first in
          let hi := bin_of origin p last in
          ok {| rows := map (fun b => (b, sum_skipna (bin_values b p (rows s))))
                            (bin_labels lo hi p);
                sfreq := Some fr |}
      end
  end.

End Series.

Arguments Series num : clear implicits.

Declare Scope result_scope.
Delimit Scope result_scope with result.
Notation "x <- c ;; k" := (rbind c (fun x => k))
  (at level 61, c at next level, right associativity) : result_scope.

(** ** rdtools/normalization.py: the PVWatts path *)

Section PVWatts.

Context {num : Type} `{N : Numeric num}.

Local Open Scope num_scope.

(** [pvwatts_dc_power(poa_global, P_stc, T_cell=None, G_stc=1000, T_stc=25,
    gamma_pdc=None)].  The defaults of [G_stc] and [T_stc] are supplied by
    the caller of this definition; see [call_pvwatts_dc_power]. *)
Definition pvwatts_dc_power (poa_global : Series num) (P_stc : num)
    (T_cell : option (Series num)) (G_stc T_stc : num)
    (gamma_pdc : option num) : Series num :=
  let dc_power := smap (fun x => x / G_stc) (smap (fun g => P_stc * g) poa_global) in
  match T_cell, gamma_pdc with
  | Some T_cell, Some gamma_pdc =>
      let temperature_factor :=
        smap (fun y => of_int 1 + y)
             (smap (fun d => gamma_pdc * d) (smap (fun tc => tc - T_stc) T_cell)) in
      series_binop nmul dc_power temperature_factor
  | _, _ => dc_power
  end.

(** The keyword dictionary [pvwatts_kws].  The two required keys are always
    present; an optional key is [None] when the dictionary leaves it out. *)
Record PvwattsKws : Type := mkPvwattsKws {
  kw_poa_global : Series num;
  kw_P_stc : num;
  kw_T_cell : option (Series num);
  kw_G_stc : option num;
  kw_T_stc : option num;
  kw_gamma_pdc : option num
}.

Definition default (d : num) (o : option num) : num :=
  match o with Some x => x | None => d end.

(** The call of [pvwatts_dc_power] with the dictionary unpacked into its
    keyword arguments. *)
Definition call_pvwatts_dc_power (kws : PvwattsKws) : Series num :=
  pvwatts_dc_power (kw_poa_global kws) (kw_P_stc kws) (kw_T_cell kws)
    (default (of_int 1000) (kw_G_stc kws)) (default (of_int 25) (kw_T_stc kws))
    (kw_gamma_pdc kws).

(** [pd.infer_freq] is a parameter of the development: it returns an offset,
    returns [None] when it finds no regular spacing, or raises. *)
Variable infer_freq : DatetimeIndex -> Result (option Freq).

Local Open Scope result_scope.

Definition normalize_with_pvwatts (energy : Series num) (pvwatts_kws : PvwattsKws)
    : Result (Series num) :=
  freq <- match freq (index energy) with
          | None => infer_freq (index energy)
          | Some f => ok (Some f)
          end ;;
  let dc_power := call_pvwatts_dc_power pvwatts_kws in
  energy_dc <- resample_sum dc_power freq ;;
  let normalized_energy := series_binop ndiv energy energy_dc in
  ok normalized_energy.

End PVWatts.

Arguments PvwattsKws num : clear implicits.

(** An inference function to run the entry points with.  It answers as
    [pd.infer_freq] does on the indexes it is applied to below: fewer than
    three labels raise; hourly and daily spacing from the epoch on give the
    tick of that spacing; a daily index with a missing day gives no
    frequency.  It is not [pd.infer_freq] elsewhere: pandas answers an
    anchored or calendar offset on weekly and month-start spacing, and a
    negative tick on a decreasing index, none of which [Freq] holds. *)
Fixpoint spaced (d : Z) (l : list Timestamp) : bool :=
  match l with
  | t :: (u :: _) as l' => Z.eqb (u - t) d && spaced d l'
  | _ => true
  end.

Definition infer_freq_regular (idx : DatetimeIndex) : Result (option Freq) :=
  match stamps idx with
  | t0 :: (t1 :: _ :: _) as l' =>
      match t1 - t0 with
      | Zpos p => if spaced (Zpos p) l' then ok (Some (Tick p)) else ok None
      | _ => ok None
      end
  | _ => raise (ValueError "Need at least 3 dates to infer frequency")
  end.

(** ** pandas: data frames *)

Section Frames.

Context {num : Type} `{N : Numeric num}.

(** A frame is an index and its named columns. *)
Record DataFrame : Type := mkFrame {
  df_index : DatetimeIndex;
  df_columns : list (string * list num)
}.

(** [df[key]]: the column as a series on the frame's index, [KeyError] when
    there is no such column. *)
Definition getitem (df : DataFrame) (key : string) : Result (Series num) :=
  match find (fun c => String.eqb key (fst c)) (df_columns df) with
  | Some c => ok {| rows := combine (stamps (df_index df)) (snd c);
                    sfreq := freq (df_index df) |}
  | None => raise (KeyError key)
  end.

End Frames.

Arguments DataFrame num : clear implicits.

(** ** rdtools/normalization.py: the SAPM path *)

Section SAPM.

(** [ModuleParameters] is the type of the module constants held by the
    system descriptor; the code only passes them on. *)
Context {num : Type} `{N : Numeric num} {ModuleParameters : Type}.

(** The pvlib [LocalizedPVSystem] object, by the attribute and the methods
    that [sapm_dc_power] uses.  Every method may raise. *)
Record LocalizedPVSystem : Type := mkSystem {
  module : ModuleParameters;
  get_solarposition : DatetimeIndex -> Result (DataFrame num);
  get_poa_global :
    Series num -> Series num -> Series num -> Series num -> Series num ->
    Result (DataFrame num);
  get_aoi : Series num -> Series num -> Result (Series num);
  get_airmass : DataFrame num -> string -> Result (DataFrame num);
  sapm_celltemp : Series num -> Series num -> Series num -> Result (DataFrame num);
  pvwatts_dc : Series num -> Series num -> Result (Series num)
}.

(** [pvlib.pvsystem.sapm_effective_poa_global(poa_direct, poa_diffuse,
    airmass_absolute, aoi, module, reference_poa_global)] *)
Variable sapm_effective_poa_global :
  Series num -> Series num -> Series num -> Series num ->
  ModuleParameters -> num -> Result (Series num).

(** A call into pvlib, with the arguments it was given. *)
Inductive Call : Type :=
| Call_get_solarposition (times : DatetimeIndex)
| Call_get_poa_global (zenith azimuth dni ghi dhi : Series num)
| Call_get_aoi (zenith azimuth : Series num)
| Call_get_airmass (solar_position : DataFrame num) (model : string)
| Call_sapm_effective_poa_global
    (poa_direct poa_diffuse airmass_absolute aoi : Series num)
    (module : ModuleParameters) (reference_poa_global : num)
| Call_sapm_celltemp (irrad wind temp : Series num)
| Call_pvwatts_dc (g_poa_effective temp_cell : Series num).

(** The stage of the SAPM chain that a call belongs to. *)
Definition stage (c : Call) : nat :=
  match c with
  | Call_get_solarposition _ => 1
  | Call_get_poa_global _ _ _ _ _ => 2
  | Call_get_aoi _ _ => 3
  | Call_get_airmass _ _ => 4
  | Call_sapm_effective_poa_global _ _ _ _ _ _ => 5
  | Call_sapm_celltemp _ _ _ => 6
  | Call_pvwatts_dc _ _ => 7
  end%nat.

(** Computations that may raise and that record the calls they make, in the
    order they make them. *)
Definition Traced (A : Type) : Type := list Call -> Result A * list Call.

Definition tret {A} (x : A) : Traced A := fun log => (ok x, log).

Definition tbind {A B} (c : Traced A) (k : A -> Traced B) : Traced B :=
  fun log =>
    match c log with
    | (inl e, log') => (inl e, log')
    | (inr x, log') => k x log'
    end.

(** A step that makes no call. *)
Definition pure {A} (r : Result A) : Traced A := fun log => (r, log).

(** A call: it is recorded whether or not it raises. *)
Definition invoke {A} (c : Call) (r : Result A) : Traced A :=
  fun log => (r, log ++ [c]).

Notation "x <~ c ;; k" := (tbind c (fun x => k))
  (at level 61, c at next level, right associativity).

Definition sapm_dc_power (pvlib_pvsystem : LocalizedPVSystem)
    (poa_global : DataFrame num) : Traced (Series num) :=
  solar_position <~
    invoke (Call_get_solarposition (df_index poa_global))
           (get_solarposition pvlib_pvsystem (df_index poa_global)) ;;
  zenith <~ pure (getitem solar_position "zenith") ;;
  azimuth <~ pure (getitem solar_position "azimuth") ;;
  dni <~ pure (getitem poa_global "DNI") ;;
  ghi <~ pure (getitem poa_global "GHI") ;;
  dhi <~ pure (getitem poa_global "DHI") ;;
  total_irradiance <~
    invoke (Call_get_poa_global zenith azimuth dni ghi dhi)
           (get_poa_global pvlib_pvsystem zenith azimuth dni ghi dhi) ;;
  zenith' <~ pure (getitem solar_position "zenith") ;;
  azimuth' <~ pure (getitem solar_position "azimuth") ;;
  aoi <~
    invoke (Call_get_aoi zenith' azimuth')
           (get_aoi pvlib_pvsystem zenith' azimuth') ;;
  airmass <~
    invoke (Call_get_airmass solar_position "kastenyoung1989")
           (get_airmass pvlib_pvsystem solar_position "kastenyoung1989") ;;
  airmass_absolute <~ pure (getitem airmass "airmass_absolute") ;;
  poa_direct <~ pure (getitem total_irradiance "poa_direct") ;;
  poa_diffuse <~ pure (getitem total_irradiance "poa_diffuse") ;;
  effective_poa <~
    invoke (Call_sapm_effective_poa_global poa_direct poa_diffuse
              airmass_absolute aoi (module pvlib_pvsystem) (of_int 1))
           (sapm_effective_poa_global poa_direct poa_diffuse
              airmass_absolute aoi (module pvlib_pvsystem) (of_int 1)) ;;
  irrad <~ pure (getitem total_irradiance "poa_global") ;;
  wind <~ pure (getitem poa_global "Wind Speed") ;;
  temp <~ pure (getitem poa_global "Temperature") ;;
  temp_cell <~
    invoke (Call_sapm_celltemp irrad wind temp)
           (sapm_celltemp pvlib_pvsystem irrad wind temp) ;;
  temp_cell_col <~ pure (getitem temp_cell "temp_cell") ;;
  dc_power <~
    invoke (Call_pvwatts_dc effective_poa temp_cell_col)
           (pvwatts_dc pvlib_pvsystem effective_poa temp_cell_col) ;;
  tret dc_power.

(** The keyword dictionary [sapm_kws], with both of its keys. *)
Record SapmKws : Type := mkSapmKws {
  kw_pvlib_pvsystem : LocalizedPVSystem;
  kw_sapm_poa_global : DataFrame num
}.

Variable infer_freq : DatetimeIndex -> Result (option Freq).

Definition normalize_with_sapm (energy : Series num) (sapm_kws : SapmKws)
    : Traced (Series num) :=
  freq <~ pure match freq (index energy) with
               | None => infer_freq (index energy)
               | Some f => ok (Some f)
               end ;;
  dc_power <~ sapm_dc_power (kw_pvlib_pvsystem sapm_kws) (kw_sapm_poa_global sapm_kws) ;;
  energy_dc <~ pure (resample_sum dc_power freq) ;;
  let normalized_energy := series_binop ndiv energy energy_dc in
  tret normalized_energy.

End SAPM.

Arguments LocalizedPVSystem : clear implicits.
Arguments Call : clear implicits.
Arguments Traced : clear implicits.
Arguments SapmKws : clear implicits.

(** ** The expected DC energy, as a function of what it depends on *)

Section Denominators.

Context {num : Type} `{N : Numeric num}.

Variable infer_freq : DatetimeIndex -> Result (option Freq).

(** The frequency both entry points resample with: read off the index. *)
Definition resolve_freq (idx : DatetimeIndex) : Result (option Freq) :=
  match freq idx with
  | None => infer_freq idx
  | Some f => ok (Some f)
  end.

Local Open Scope result_scope.

(** The series [energy_dc] of [normalize_with_pvwatts], from the index of
    the energy series and the keyword dictionary. *)
Definition pvwatts_energy_dc (idx : DatetimeIndex) (kws : PvwattsKws num)
    : Result (Series num) :=
  fr <- resolve_freq idx ;;
  resample_sum (call_pvwatts_dc_power kws) fr.

(** [out] carries the outer join of the two indexes: it keeps every label
    of [energy], and has the index of [energy] exactly when [energy_dc]
    brings no label of its own. *)
Definition outer_join_index (energy energy_dc out : Series num) : Prop :=
  stamps (index out)
    = union_index (stamps (index energy)) (stamps (index energy_dc)) /\
  incl (stamps (index energy)) (stamps (index out)) /\
  (stamps (index out) = stamps (index energy) <->
   incl (stamps (index energy_dc)) (stamps (index energy))).


End Denominators.

(** An index pandas calls monotonic increasing and unique. *)
Fixpoint strictly_increasing (l : list Timestamp) : bool :=
  match l with
  | t :: (u :: _) as l' => Z.ltb t u && strictly_increasing l'
  | _ => true
  end.

(** ** Concrete data *)

Set Warnings "-inexact-float".

Section Data.

Context {num : Type} `{N : Numeric num}.

(** [n] rows, one every [step] seconds from [t0], all holding [x]. *)
Definition constant_series (t0 step : Z) (n : nat) (x : num) (f : option Freq)
    : Series num :=
  {| rows := map (fun i => (t0 + step * Z.of_nat i, x)) (seq 0 n); sfreq := f |}.

End Data.

Definition hour : positive := 3600.
Definition daily : positive := 86400.

(** A day of hourly irradiance at 1000 W/m2, and three such days. *)
Definition poa_one_day : Series float :=
  constant_series 0 3600 24 1000%float (Some (Tick hour)).
Definition poa_three_days : Series float :=
  constant_series 0 3600 72 1000%float (Some (Tick hour)).
Definition T_cell_35 : Series float :=
  constant_series 0 3600 24 35%float (Some (Tick hour)).

Definition kws_one_day : PvwattsKws float :=
  {| kw_poa_global := poa_one_day; kw_P_stc := 300%float; kw_T_cell := None;
     kw_G_stc := None; kw_T_stc := None; kw_gamma_pdc := None |}.
Definition kws_one_day_warm : PvwattsKws float :=
  {| kw_poa_global := poa_one_day; kw_P_stc := 300%float;
     kw_T_cell := Some T_cell_35; kw_G_stc := None; kw_T_stc := None;
     kw_gamma_pdc := Some (-0.004)%float |}.
Definition kws_three_days : PvwattsKws float :=
  {| kw_poa_global := poa_three_days; kw_P_stc := 300%float; kw_T_cell := None;
     kw_G_stc := None; kw_T_stc := None; kw_gamma_pdc := None |}.

(** Measured daily energy: one day, two days with the frequency set, two days
    of a three-day record, and four days with the third one missing. *)
Definition energy_one_day : Series float :=
  constant_series 0 86400 1 7200%float (Some (Tick daily)).
Definition energy_two_days : Series float :=
  constant_series 0 86400 2 7200%float (Some (Tick daily)).
Definition energy_two_days_half : Series float :=
  constant_series 0 86400 2 3600%float (Some (Tick daily)).
Definition energy_three_days : Series float :=
  constant_series 0 86400 3 7200%float None.
Definition energy_with_gap : Series float :=
  {| rows := [(0, 7200%float); (86400, 7200%float); (259200, 7200%float);
              (345600, 7200%float)];
     sfreq := None |}.

(** Inputs on which binary64 rounding shows. *)
Definition poa_tenth : Series float :=
  {| rows := [(0, 0.1%float)]; sfreq := None |}.
Definition poa_reference : Series float :=
  {| rows := [(0, 1000%float)]; sfreq := None |}.
Definition poa_negative : Series float :=
  {| rows := [(0, (-100)%float)]; sfreq := None |}.
Definition T_cell_hot : Series float :=
  {| rows := [(0, 300%float)]; sfreq := None |}.


(** A system descriptor under a constant sky: the plane of array receives
    the horizontal components unchanged, the cell is at ambient temperature,
    and the array delivers 300 W per unit of effective irradiance. *)
Definition constant_frame (idx : DatetimeIndex) (cols : list (string * float))
    : DataFrame float :=
  {| df_index := idx;
     df_columns := map (fun c => (fst c, repeat (snd c) (List.length (stamps idx)))) cols |}.

Definition constant_sky_system : LocalizedPVSystem float unit :=
  {| module := tt;
     get_solarposition := fun times =>
       ok (constant_frame times
             [("apparent_zenith"%string, 30%float); ("zenith"%string, 30%float);
              ("azimuth"%string, 180%float)]);
     get_poa_global := fun zenith azimuth dni ghi dhi =>
       ok {| df_index := index dni;
             df_columns := [("poa_global"%string, values ghi);
                            ("poa_direct"%string, values dni);
                            ("poa_diffuse"%string, values dhi)] |};
     get_aoi := fun zenith azimuth => ok zenith;
     get_airmass := fun solar_position model =>
       ok (constant_frame (df_index solar_position)
             [("airmass_relative"%string, 1.15%float);
              ("airmass_absolute"%string, 1.15%float)]);
     sapm_celltemp := fun irrad wind temp =>
       ok {| df_index := index irrad;
             df_columns := [("temp_cell"%string, values temp);
                            ("temp_module"%string, values temp)] |};
     pvwatts_dc := fun g_poa_effective temp_cell =>
       ok (smap (fun g => 300 * g)%float g_poa_effective) |}.

Definition constant_sky_effective_poa
    (poa_direct poa_diffuse airmass_absolute aoi : Series float)
    (module : unit) (reference_poa_global : float) : Result (Series float) :=
  ok (smap (fun x => reference_poa_global * x / 1000)%float
        (series_binop nadd poa_direct poa_diffuse)).

Definition frame_one_day : DataFrame float :=
  constant_frame (index poa_one_day)
    [("DNI"%string, 800%float); ("GHI"%string, 1000%float);
     ("DHI"%string, 200%float); ("Wind Speed"%string, 2%float);
     ("Temperature"%string, 20%float)].

Definition frame_three_days : DataFrame float :=
  constant_frame (index poa_three_days)
    [("DNI"%string, 800%float); ("GHI"%string, 1000%float);
     ("DHI"%string, 200%float); ("Wind Speed"%string, 2%float);
     ("Temperature"%string, 20%float)].

Definition sapm_kws_one_day : SapmKws float unit :=
  {| kw_pvlib_pvsystem := constant_sky_system; kw_sapm_poa_global := frame_one_day |}.

Definition sapm_kws_three_days : SapmKws float unit :=
  {| kw_pvlib_pvsystem := constant_sky_system;
     kw_sapm_poa_global := frame_three_days |}.

(** A frame without diffuse irradiance, and a cell temperature one hour off
    the irradiance it is meant to correct. *)
Definition frame_without_dhi : DataFrame float :=
  constant_frame (index poa_one_day)
    [("DNI"%string, 800%float); ("GHI"%string, 1000%float);
     ("Wind Speed"%string, 2%float); ("Temperature"%string, 20%float)].

Definition poa_single_exact : Series exact :=
  {| rows := [(0, Some (Q2Qc 1000))]; sfreq := None |}.
Definition T_cell_late_exact : Series exact :=
  {| rows := [(3600, Some (Q2Qc 25))]; sfreq := None |}.

(** A cell temperature that starts one hour after the irradiance. *)
Definition T_cell_late : Series float :=
  constant_series 3600 3600 24 35%float (Some (Tick hour)).

Definition sapm_kws_without_dhi : SapmKws float unit :=
  {| kw_pvlib_pvsystem := constant_sky_system;
     kw_sapm_poa_global := frame_without_dhi |}.

(** Three days of energy stamped at noon. *)
Definition energy_at_noon : Series float :=
  constant_series 43200 86400 3 7200%float None.

(** Keywords whose irradiance series has no rows. *)
Definition kws_no_irradiance : PvwattsKws float :=
  {| kw_poa_global := {| rows := []; sfreq := None |}; kw_P_stc := 300%float;
     kw_T_cell := None; kw_G_stc := None; kw_T_stc := None;
     kw_gamma_pdc := None |}.

(** ** Further notions used to state properties *)

(** A product with a missing factor is missing. *)
Class NanPropagating (num : Type) `{Numeric num} : Prop := {
  nmul_nan_l : forall x, nmul nan x = nan;
  nmul_nan_r : forall x, nmul x nan = nan
}.

Section MoreNotions.

Context {num : Type} `{N : Numeric num}.

(** [key in df.columns] *)
Definition has_column (df : DataFrame num) (key : string) : bool :=
  existsb (fun c => String.eqb key (fst c)) (df_columns df).

(** The columns of the meteorological frame that [sapm_dc_power] reads. *)
Definition frame_columns : list string :=
  ["DNI"; "GHI"; "DHI"; "Wind Speed"; "Temperature"]%string.

(** Applying [f] to a returned series, leaving an error as it is. *)
Definition rmap (f : Series num -> Series num) (r : Result (Series num))
    : Result (Series num) :=
  rbind r (fun s => ok (f s)).

(** The dictionary [kws] with its nameplate power replaced. *)
Definition with_P_stc (P_stc : num) (kws : PvwattsKws num) : PvwattsKws num :=
  {| kw_poa_global := kw_poa_global kws; kw_P_stc := P_stc;
     kw_T_cell := kw_T_cell kws; kw_G_stc := kw_G_stc kws;
     kw_T_stc := kw_T_stc kws; kw_gamma_pdc := kw_gamma_pdc kws |}.

End MoreNotions.

(** Order on defined exact values; nothing is below or above an undefined
    value. *)
Definition exact_le (x y : exact) : Prop :=
  match x, y with
  | Some a, Some b => Qcle a b
  | _, _ => False
  end.

(** A day of hourly irradiance, the matching keywords, and a warm cell, in
    exact arithmetic. *)
Definition poa_exact_day : Series exact :=
  constant_series 0 3600 24 (Some (Q2Qc 1000)) (Some (Tick hour)).
Definition T_cell_exact_warm : Series exact :=
  constant_series 0 3600 24 (Some (Q2Qc 35)) (Some (Tick hour)).
Definition kws_exact_day : PvwattsKws exact :=
  {| kw_poa_global := poa_exact_day; kw_P_stc := Some (Q2Qc 300);
     kw_T_cell := None; kw_G_stc := None; kw_T_stc := None;
     kw_gamma_pdc := None |}.
Definition energy_exact_day : Series exact :=
  constant_series 0 86400 1 (Some (Q2Qc 7200)) (Some (Tick daily)).

(** ** Facts about indexes and alignment *)

Section IndexFacts.

Lemma index_equals_eq (a b : list Timestamp) :
  index_equals a b = true <-> a = b.
Proof.
  revert b; induction a as [|x a IH]; intros [|y b]; simpl;
    try (split; [discriminate | intros E; discriminate E]);
    try (split; reflexivity).
  rewrite andb_true_iff, Z.eqb_eq, IH. split.
  - intros [-> ->]; reflexivity.
  - intros E; injection E; auto.
Qed.

Lemma insert_label_In (t x : Timestamp) (l : list Timestamp) :
  In x (insert_label t l) <-> x = t \/ In x l.
Proof.
  induction l as [|u l IH]; simpl.
  - intuition.
  - destruct (Z.ltb_spec t u); simpl; [intuition|].
    destruct (Z.eqb_spec t u); simpl; [subst; intuition|].
    rewrite IH. intuition.
Qed.

Lemma union_index_In (a b : list Timestamp) (x : Timestamp) :
  In x (union_index a b) <-> In x a \/ In x b.
Proof.
  unfold union_index. rewrite <- in_app_iff.
  induction (a ++ b) as [|t l IH]; simpl; [tauto|].
  rewrite insert_label_In, IH. intuition.
Qed.

Lemma strictly_increasing_sorted (l : list Timestamp) :
  strictly_increasing l = true <-> StronglySorted Z.lt l.
Proof.
  induction l as [|t l IH]; [split; [constructor | reflexivity]|].
  destruct l as [|u l].
  - split; [repeat constructor | reflexivity].
  - change (strictly_increasing (t :: u :: l))
      with (Z.ltb t u && strictly_increasing (u :: l)).
    rewrite andb_true_iff, Z.ltb_lt, IH. split.
    + intros [Htu Hs]. constructor; [assumption|].
      constructor; [assumption|].
      inversion Hs as [|? ? _ Hall]; subst.
      eapply Forall_impl; [|exact Hall]. intros; simpl in *; lia.
    + intros Hs. inversion Hs as [|? ? Hs' Hall]; subst.
      split; [inversion Hall; assumption | assumption].
Qed.

Lemma insert_label_sorted (t : Timestamp) (l : list Timestamp) :
  StronglySorted Z.lt l -> StronglySorted Z.lt (insert_label t l).
Proof.
  induction 1 as [|u l Hs IH Hall]; simpl; [repeat constructor|].
  destruct (Z.ltb_spec t u).
  - constructor; [constructor; assumption|].
    constructor; [assumption|].
    eapply Forall_impl; [|exact Hall]. intros; simpl in *; lia.
  - destruct (Z.eqb_spec t u); [constructor; assumption|].
    constructor; [assumption|].
    apply Forall_forall. intros x Hx. apply insert_label_In in Hx.
    destruct Hx as [->|Hx]; [lia|].
    rewrite Forall_forall in Hall. auto.
Qed.

Lemma union_index_sorted (a b : list Timestamp) :
  StronglySorted Z.lt (union_index a b).
Proof.
  unfold union_index.
  induction (a ++ b); simpl; [constructor | apply insert_label_sorted; assumption].
Qed.

(** Two strictly increasing lists with the same members are the same list. *)
Lemma sorted_same_members (l1 l2 : list Timestamp) :
  StronglySorted Z.lt l1 -> StronglySorted Z.lt l2 ->
  (forall x, In x l1 <-> In x l2) -> l1 = l2.
Proof.
  intros H1; revert l2.
  induction H1 as [|x l1 Hs1 IH Hall1]; intros l2 H2 Hmem.
  - destruct l2 as [|y l2]; [reflexivity|].
    exfalso. apply (proj2 (Hmem y)). left; reflexivity.
  - destruct H2 as [|y l2 Hs2 Hall2].
    + exfalso. apply (proj1 (Hmem x)). left; reflexivity.
    + rewrite Forall_forall in Hall1, Hall2.
      assert (x = y) as ->.
      { destruct (proj1 (Hmem x) (or_introl eq_refl)) as [E|Hx]; [auto|].
        destruct (proj2 (Hmem y) (or_introl eq_refl)) as [E|Hy]; [auto|].
        specialize (Hall1 _ Hy). specialize (Hall2 _ Hx). lia. }
      f_equal. apply IH; [assumption|].
      intros z; split; intros Hz.
      * destruct (proj1 (Hmem z) (or_intror Hz)) as [E|Hz']; [|assumption].
        specialize (Hall1 _ Hz). lia.
      * destruct (proj2 (Hmem z) (or_intror Hz)) as [E|Hz']; [|assumption].
        specialize (Hall2 _ Hz). lia.
Qed.

(** Joining an increasing index with labels it already has changes nothing. *)
Lemma union_index_absorb (a b : list Timestamp) :
  strictly_increasing a = true -> incl b a -> union_index a b = a.
Proof.
  intros Ha Hb. apply sorted_same_members.
  - apply union_index_sorted.
  - apply strictly_increasing_sorted; assumption.
  - intros x. rewrite union_index_In. split; [intros [?|?]; auto | auto].
Qed.

End IndexFacts.

Section AlignmentFacts.

Context {num : Type} `{N : Numeric num}.

Lemma smap_stamps (f : num -> num) (s : Series num) :
  stamps (index (smap f s)) = stamps (index s).
Proof.
  unfold smap; simpl. rewrite map_map. reflexivity.
Qed.

Lemma smap_smap (f g : num -> num) (s : Series num) :
  smap f (smap g s) = smap (fun x => f (g x)) s.
Proof.
  unfold smap; simpl. rewrite map_map. reflexivity.
Qed.

Lemma smap_values (f : num -> num) (s : Series num) :
  values (smap f s) = map f (values s).
Proof.
  unfold values, smap; simpl. rewrite !map_map. reflexivity.
Qed.

Lemma zip_with_stamps (f : num -> num -> num) (a b : list (Timestamp * num)) :
  map fst a = map fst b -> map fst (zip_with f a b) = map fst a.
Proof.
  revert b; induction a as [|[t x] a IH]; intros [|[u y] b] E; simpl in *;
    try reflexivity; try discriminate.
  injection E as _ E. rewrite IH by assumption. reflexivity.
Qed.

Lemma zip_with_smap (f : num -> num -> num) (g h : num -> num)
    (a b : list (Timestamp * num)) :
  zip_with f (map (fun r => (fst r, g (snd r))) a)
             (map (fun r => (fst r, h (snd r))) b)
  = zip_with (fun x y => f (g x) (h y)) a b.
Proof.
  revert b; induction a as [|[t x] a IH]; intros [|[u y] b]; simpl;
    try reflexivity.
  rewrite IH. reflexivity.
Qed.

Lemma lookup_zip_with (f : num -> num -> num) (t : Timestamp)
    (a b : list (Timestamp * num)) :
  map fst a = map fst b -> In t (map fst a) ->
  lookup t (zip_with f a b) = f (lookup t a) (lookup t b).
Proof.
  revert b; induction a as [|[u x] a IH]; intros [|[v y] b] E Hin;
    simpl in *; try contradiction; try discriminate.
  injection E as <- E.
  destruct (Z.eqb_spec t u) as [->|Hne]; [reflexivity|].
  apply IH; [assumption|]. destruct Hin as [->|Hin]; [contradiction | assumption].
Qed.

Lemma lookup_tabulate (g : Timestamp -> num) (t : Timestamp) (l : list Timestamp) :
  In t l -> lookup t (map (fun u => (u, g u)) l) = g t.
Proof.
  induction l as [|u l IH]; simpl; [contradiction|].
  intros Hin. destruct (Z.eqb_spec t u) as [->|Hne]; [reflexivity|].
  apply IH. destruct Hin as [->|Hin]; [contradiction | assumption].
Qed.

Lemma lookup_missing (t : Timestamp) (l : list (Timestamp * num)) :
  ~ In t (map fst l) -> lookup t l = nan.
Proof.
  induction l as [|[u x] l IH]; simpl; [reflexivity|].
  intros Hnin. destruct (Z.eqb_spec t u) as [->|Hne]; [tauto|].
  apply IH. tauto.
Qed.

(** The index of [a op b]. *)
Lemma series_binop_stamps (f : num -> num -> num) (a b : Series num) :
  stamps (index (series_binop f a b)) =
    if index_equals (stamps (index a)) (stamps (index b))
    then stamps (index a)
    else union_index (stamps (index a)) (stamps (index b)).
Proof.
  unfold series_binop.
  destruct (index_equals _ _) eqn:E; simpl.
  - apply index_equals_eq in E. simpl in E. apply zip_with_stamps; assumption.
  - rewrite map_map. simpl. apply map_id.
Qed.

(** No label of the left operand is lost, and no label is invented. *)
Lemma series_binop_members (f : num -> num -> num) (a b : Series num)
    (t : Timestamp) :
  In t (stamps (index (series_binop f a b))) <->
  In t (stamps (index a)) \/ In t (stamps (index b)).
Proof.
  rewrite series_binop_stamps.
  destruct (index_equals _ _) eqn:E.
  - apply index_equals_eq in E. rewrite <- E. tauto.
  - apply union_index_In.
Qed.

(** On an increasing left index the result index is the outer join. *)
Lemma series_binop_union (f : num -> num -> num) (a b : Series num) :
  strictly_increasing (stamps (index a)) = true ->
  stamps (index (series_binop f a b)) =
    union_index (stamps (index a)) (stamps (index b)).
Proof.
  intros Ha. rewrite series_binop_stamps.
  destruct (index_equals _ _) eqn:E; [|reflexivity].
  apply index_equals_eq in E. rewrite <- E.
  symmetry. apply union_index_absorb; [assumption | apply incl_refl].
Qed.

(** The result index is the left index exactly when the right operand brings
    no label of its own. *)
Lemma series_binop_same_index (f : num -> num -> num) (a b : Series num) :
  strictly_increasing (stamps (index a)) = true ->
  (stamps (index (series_binop f a b)) = stamps (index a) <->
   incl (stamps (index b)) (stamps (index a))).
Proof.
  intros Ha. split.
  - intros E t Ht. rewrite <- E. apply series_binop_members. auto.
  - intros Hincl. rewrite series_binop_union by assumption.
    apply union_index_absorb; assumption.
Qed.

(** Every row of [a op b] combines the two operands at its label. *)
Lemma series_binop_at (f : num -> num -> num) (a b : Series num) (t : Timestamp) :
  In t (stamps (index (series_binop f a b))) ->
  at_ (series_binop f a b) t = f (at_ a t) (at_ b t).
Proof.
  rewrite series_binop_stamps. unfold series_binop, at_.
  destruct (index_equals _ _) eqn:E; simpl; intros Hin.
  - apply index_equals_eq in E. simpl in E. apply lookup_zip_with; assumption.
  - apply (lookup_tabulate (fun u => f (lookup u (rows a)) (lookup u (rows b)))).
    assumption.
Qed.

Context {NA : NanAbsorbing num}.

(** A quotient row is missing wherever either operand has no row. *)
Lemma series_div_missing (a b : Series num) (t : Timestamp) :
  In t (stamps (index (series_binop ndiv a b))) ->
  ~ (In t (stamps (index a)) /\ In t (stamps (index b))) ->
  at_ (series_binop ndiv a b) t = nan.
Proof.
  intros Hin Hnot. rewrite series_binop_at by assumption.
  destruct (in_dec Z.eq_dec t (stamps (index a))) as [Ha|Ha].
  - assert (Hb : ~ In t (stamps (index b))) by tauto.
    unfold at_ at 2. rewrite (lookup_missing _ _ Hb). apply ndiv_nan_r.
  - unfold at_ at 1. rewrite (lookup_missing _ _ Ha). apply ndiv_nan_l.
Qed.

End AlignmentFacts.

(** ** The two arithmetics *)

#[export] Instance float64_nan_absorbing : NanAbsorbing float.
Proof.
  split.
  - reflexivity.
  - intros x. apply Prim2SF_inj. simpl. rewrite div_spec.
    reflexivity.
  - intros x. apply Prim2SF_inj. simpl. rewrite div_spec.
    change (Prim2SF PrimFloat.nan) with S754_nan.
    unfold SF64div, SFdiv. destruct (Prim2SF x); reflexivity.
Qed.

#[export] Instance exact_nan_absorbing : NanAbsorbing exact.
Proof.
  split.
  - reflexivity.
  - intros x. reflexivity.
  - intros [x|]; reflexivity.
Qed.

Section ExactArithmetic.

Local Open Scope Qc_scope.

Lemma exact_scaling (P k x G : exact) :
  ndiv (nmul P (nmul k x)) G = nmul k (ndiv (nmul P x) G).
Proof.
  destruct P as [p|], k as [k|], x as [x|], G as [g|]; simpl; try reflexivity.
  destruct (Qc_eq_dec g (Q2Qc 0)); [reflexivity|].
  f_equal. unfold Qcdiv. ring.
Qed.




End ExactArithmetic.

(** ** pvwatts_dc_power *)

Section PVWattsFacts.

Context {num : Type} `{N : Numeric num}.

Local Open Scope num_scope.

(** The uncorrected power, written as one broadcast. *)
Lemma pvwatts_base (poa_global : Series num) (P_stc G_stc T_stc : num) :
  pvwatts_dc_power poa_global P_stc None G_stc T_stc None
  = smap (fun g => P_stc * g / G_stc) poa_global.
Proof.
  unfold pvwatts_dc_power. apply smap_smap.
Qed.


Lemma pvwatts_inactive (poa_global : Series num) (P_stc G_stc T_stc : num)
    (T_cell : option (Series num)) (gamma_pdc : option num) :
  T_cell = None \/ gamma_pdc = None ->
  pvwatts_dc_power poa_global P_stc T_cell G_stc T_stc gamma_pdc
  = smap (fun g => P_stc * g / G_stc) poa_global.
Proof.
  intros [-> | ->].
  - destruct gamma_pdc; unfold pvwatts_dc_power; apply smap_smap.
  - destruct T_cell; unfold pvwatts_dc_power; apply smap_smap.
Qed.

Lemma pvwatts_active (poa_global T_cell : Series num)
    (P_stc G_stc T_stc gamma_pdc : num) :
  pvwatts_dc_power poa_global P_stc (Some T_cell) G_stc T_stc (Some gamma_pdc)
  = series_binop nmul
      (smap (fun g => P_stc * g / G_stc) poa_global)
      (smap (fun tc => of_int 1 + gamma_pdc * (tc - T_stc)) T_cell).
Proof.
  unfold pvwatts_dc_power. rewrite !smap_smap. reflexivity.
Qed.

(** With the cell temperature indexed like the irradiance the correction is
    applied row by row. *)
Lemma pvwatts_active_aligned (poa_global T_cell : Series num)
    (P_stc G_stc T_stc gamma_pdc : num) :
  stamps (index T_cell) = stamps (index poa_global) ->
  pvwatts_dc_power poa_global P_stc (Some T_cell) G_stc T_stc (Some gamma_pdc)
  = {| rows := zip_with (fun g tc => (P_stc * g / G_stc)
                                     * (of_int 1 + gamma_pdc * (tc - T_stc)))
                 (rows poa_global) (rows T_cell);
       sfreq := sfreq poa_global |}.
Proof.
  intros E. rewrite pvwatts_active.
  unfold series_binop. rewrite !smap_stamps.
  rewrite (proj2 (index_equals_eq _ _) (eq_sym E)). simpl. f_equal.
  exact (zip_with_smap nmul (fun g => P_stc * g / G_stc)
           (fun tc => of_int 1 + gamma_pdc * (tc - T_stc))
           (rows poa_global) (rows T_cell)).
Qed.

End PVWattsFacts.

(** C2. Supplying exactly one of [T_cell] and [gamma_pdc] gives the result of
    supplying neither: the call does not raise and no correction is applied. *)
Theorem pvwatts_partial_temperature_ignored :
  forall (num : Type) (N : Numeric num) (poa_global : Series num)
         (P_stc G_stc T_stc : num),
    (forall T_cell : Series num,
        pvwatts_dc_power poa_global P_stc (Some T_cell) G_stc T_stc None
        = pvwatts_dc_power poa_global P_stc None G_stc T_stc None) /\
    (forall gamma_pdc : num,
        pvwatts_dc_power poa_global P_stc None G_stc T_stc (Some gamma_pdc)
        = pvwatts_dc_power poa_global P_stc None G_stc T_stc None).
Proof.
  intros. split; intros; reflexivity.
Qed.

(** C3. Without both temperature arguments [pvwatts_dc_power] is
    [P_stc * poa_global / G_stc]; with both it is that series times
    [1 + gamma_pdc * (T_cell - T_stc)], row by row when [T_cell] is indexed
    like [poa_global].  Nothing is clamped or validated: negative irradiance,
    or a temperature factor below zero, gives negative power in binary64. *)
Theorem pvwatts_dc_power_formula :
  (forall (num : Type) (N : Numeric num) (poa_global : Series num)
          (P_stc G_stc T_stc : num),
      (forall (T_cell : option (Series num)) (gamma_pdc : option num),
          T_cell = None \/ gamma_pdc = None ->
          pvwatts_dc_power poa_global P_stc T_cell G_stc T_stc gamma_pdc
          = smap (fun g => P_stc * g / G_stc)%num poa_global) /\
      (forall (T_cell : Series num) (gamma_pdc : num),
          pvwatts_dc_power poa_global P_stc (Some T_cell) G_stc T_stc (Some gamma_pdc)
          = series_binop nmul
              (smap (fun g => P_stc * g / G_stc)%num poa_global)
              (smap (fun tc => of_int 1 + gamma_pdc * (tc - T_stc))%num T_cell)) /\
      (forall (T_cell : Series num) (gamma_pdc : num),
          stamps (index T_cell) = stamps (index poa_global) ->
          rows (pvwatts_dc_power poa_global P_stc (Some T_cell) G_stc T_stc
                  (Some gamma_pdc))
          = zip_with (fun g tc => (P_stc * g / G_stc)
                                  * (of_int 1 + gamma_pdc * (tc - T_stc)))%num
              (rows poa_global) (rows T_cell))) /\
  PrimFloat.ltb
    (at_ (pvwatts_dc_power poa_negative 300%float None 1000%float 25%float None) 0)
    0%float = true /\
  PrimFloat.ltb
    (at_ (pvwatts_dc_power poa_reference 300%float (Some T_cell_hot) 1000%float
            25%float (Some (-0.004)%float)) 0)
    0%float = true.
Proof.
  split; [|split; reflexivity].
  intros num N poa P G T. split; [|split].
  - intros Tc gam H. apply pvwatts_inactive. exact H.
  - intros Tc gam. apply pvwatts_active.
  - intros Tc gam E. rewrite pvwatts_active_aligned by exact E. reflexivity.
Qed.

(** C3 on the warm day of the specification (35 degrees, coefficient -0.004). *)
Lemma pvwatts_dc_power_formula_witness :
  ((None (A := Series float) = None \/ Some (-0.004)%float = None) /\
   pvwatts_dc_power poa_one_day 300%float None 1000%float 25%float
     (Some (-0.004)%float)
   = smap (fun g => 300 * g / 1000)%float poa_one_day) /\
  (stamps (index T_cell_35) = stamps (index poa_one_day) /\
   rows (pvwatts_dc_power poa_one_day 300%float (Some T_cell_35) 1000%float
           25%float (Some (-0.004)%float))
   = zip_with (fun g tc => (300 * g / 1000) * (1 + -0.004 * (tc - 25)))%float
       (rows poa_one_day) (rows T_cell_35)).
Proof.
  destruct pvwatts_dc_power_formula as [H _].
  destruct (H float float64 poa_one_day 300%float 1000%float 25%float)
    as (H1 & _ & H3).
  split; split.
  - left; reflexivity.
  - apply H1. left; reflexivity.
  - reflexivity.
  - apply H3. reflexivity.
Defined.

(** C7, as stated, fails in binary64: with [P_stc = 300], [G_stc = 1000] and
    the single non-negative sample 0.1, scaling the irradiance by 3 gives
    0.09000000000000001 and scaling the power by 3 gives 0.09. *)
Lemma pvwatts_not_linear_in_binary64 :
  (forall x, In x (values poa_tenth) -> PrimFloat.leb 0%float x = true) /\
  pvwatts_dc_power (smap (fun x => 3 * x)%float poa_tenth)
    300%float None 1000%float 25%float None
  <> smap (fun x => 3 * x)%float
       (pvwatts_dc_power poa_tenth 300%float None 1000%float 25%float None).
Proof.
  split.
  - intros x [<- | []]. reflexivity.
  - intros E.
    apply (f_equal (fun s => map Prim2SF (values s))) in E.
    vm_compute in E. discriminate E.
Qed.

(** C7, amended. In exact arithmetic [pvwatts_dc_power] without the
    temperature arguments is linear in the irradiance, for every irradiance
    series and every scalar.  In binary64 the equality holds on the day of
    the specification (300 W, 1000 W/m2) for the scalar 2. *)
Theorem pvwatts_linear_in_exact_arithmetic :
  (forall (poa_global : Series exact) (P_stc G_stc T_stc k : exact),
      pvwatts_dc_power (smap (fun x => nmul k x) poa_global)
        P_stc None G_stc T_stc None
      = smap (fun x => nmul k x)
          (pvwatts_dc_power poa_global P_stc None G_stc T_stc None)) /\
  pvwatts_dc_power (smap (fun x => 2 * x)%float poa_one_day)
    300%float None 1000%float 25%float None
  = smap (fun x => 2 * x)%float
      (pvwatts_dc_power poa_one_day 300%float None 1000%float 25%float None).
Proof.
  split; [|reflexivity].
  intros poa P G T k. rewrite !pvwatts_base, !smap_smap.
  unfold smap. f_equal. apply map_ext. intros [t x]. simpl.
  f_equal. apply exact_scaling.
Qed.




(** ** normalize_with_pvwatts and normalize_with_sapm *)

Section NormalizationFacts.

Context {num : Type} `{N : Numeric num} {ModuleParameters : Type}.

Variable infer_freq : DatetimeIndex -> Result (option Freq).

Variable sapm_effective_poa_global :
  Series num -> Series num -> Series num -> Series num ->
  ModuleParameters -> num -> Result (Series num).

(** Resampling with an offset always returns. *)
Lemma resample_sum_total (s : Series num) (f : Freq) :
  exists r, resample_sum s (Some f) = inr r.
Proof.
  unfold resample_sum. destruct (rows s) as [|[t0 x] l]; eexists; reflexivity.
Qed.

(** [normalize_with_pvwatts] divides the energy by a series computed from
    the energy index and the keywords alone. *)
Lemma normalize_with_pvwatts_run (energy : Series num) (kws : PvwattsKws num) :
  normalize_with_pvwatts infer_freq energy kws
  = rbind (pvwatts_energy_dc infer_freq (index energy) kws)
          (fun energy_dc => ok (series_binop ndiv energy energy_dc)).
Proof.
  unfold normalize_with_pvwatts, pvwatts_energy_dc, resolve_freq.
  destruct (freq (index energy)) as [f|]; simpl; [reflexivity|].
  destruct (infer_freq (index energy)); reflexivity.
Qed.

(** [normalize_with_sapm], run from a given call log. *)
Lemma normalize_with_sapm_run (energy : Series num)
    (kws : SapmKws num ModuleParameters) (log : list (Call num ModuleParameters)) :
  normalize_with_sapm sapm_effective_poa_global infer_freq energy kws log
  = match resolve_freq infer_freq (index energy) with
    | inl e => (inl e, log)
    | inr fr =>
        let r := sapm_dc_power sapm_effective_poa_global
                   (kw_pvlib_pvsystem kws) (kw_sapm_poa_global kws) log in
        (rbind (fst r) (fun dc_power =>
           rbind (resample_sum dc_power fr) (fun energy_dc =>
             ok (series_binop ndiv energy energy_dc))),
         snd r)
    end.
Proof.
  unfold normalize_with_sapm, resolve_freq, tbind, pure, tret.
  destruct (match freq (index energy) with
            | Some f => ok (Some f)
            | None => infer_freq (index energy)
            end) as [e|fr]; [reflexivity|].
  destruct (sapm_dc_power _ _ _ log) as [[e|dc] log']; simpl; [reflexivity|].
  destruct (resample_sum dc fr); reflexivity.
Qed.

Lemma quotient_outer_join (energy energy_dc : Series num) :
  strictly_increasing (stamps (index energy)) = true ->
  outer_join_index energy energy_dc (series_binop ndiv energy energy_dc).
Proof.
  intros Hinc. split; [|split].
  - apply series_binop_union. assumption.
  - intros t Ht. apply series_binop_members. auto.
  - apply series_binop_same_index. assumption.
Qed.


End NormalizationFacts.

(** C1, as stated, fails: with two days of daily energy (frequency set) and
    three days of hourly irradiance, the resampled DC energy has a third day
    and [normalize_with_pvwatts] returns three rows, the last one missing. *)
Lemma normalized_index_gains_modeled_day :
  exists out,
    normalize_with_pvwatts infer_freq_regular energy_two_days kws_three_days
      = inr out /\
    stamps (index energy_two_days) = [0; 86400] /\
    stamps (index out) = [0; 86400; 172800] /\
    stamps (index out) <> stamps (index energy_two_days).
Proof.
  eexists. split; [vm_compute; reflexivity|].
  split; [reflexivity|]. split; [reflexivity|]. discriminate.
Qed.

(** C1, amended. For an energy series with a strictly increasing index, the
    index returned by [normalize_with_pvwatts] and [normalize_with_sapm] is
    the outer join of the energy index and the index of the resampled DC
    energy: no energy timestamp is removed, and the result has exactly the
    energy index if and only if every timestamp of the resampled DC energy
    is a timestamp of the energy series. *)
Theorem normalized_index_is_outer_join :
  forall (num : Type) (N : Numeric num)
         (infer_freq : DatetimeIndex -> Result (option Freq))
         (energy : Series num),
    strictly_increasing (stamps (index energy)) = true ->
    (forall (kws : PvwattsKws num) (out : Series num),
        normalize_with_pvwatts infer_freq energy kws = inr out ->
        exists energy_dc,
          pvwatts_energy_dc infer_freq (index energy) kws = inr energy_dc /\
          outer_join_index energy energy_dc out) /\
    (forall (ModuleParameters : Type) sapm_effective_poa_global
            (kws : SapmKws num ModuleParameters) log out log',
        normalize_with_sapm sapm_effective_poa_global infer_freq energy kws log
          = (inr out, log') ->
        exists fr dc_power energy_dc,
          resolve_freq infer_freq (index energy) = inr fr /\
          sapm_dc_power sapm_effective_poa_global (kw_pvlib_pvsystem kws)
            (kw_sapm_poa_global kws) log = (inr dc_power, log') /\
          resample_sum dc_power fr = inr energy_dc /\
          outer_join_index energy energy_dc out).
Proof.
  intros num N infer energy Hinc. split.
  - intros kws out H. rewrite normalize_with_pvwatts_run in H.
    destruct (pvwatts_energy_dc infer (index energy) kws) as [e|d];
      simpl in H; [discriminate H|].
    injection H as <-. exists d. split; [reflexivity|].
    apply quotient_outer_join. assumption.
  - intros M eff kws log out log' H. rewrite normalize_with_sapm_run in H.
    destruct (resolve_freq infer (index energy)) as [e|fr]; [discriminate H|].
    destruct (sapm_dc_power eff _ _ log) as [[e|dc] log1]; simpl in H;
      [discriminate H|].
    destruct (resample_sum dc fr) as [e|d] eqn:Hd; simpl in H; [discriminate H|].
    injection H as <- <-. exists fr, dc, d.
    split; [reflexivity|]. split; [reflexivity|]. split; [exact Hd|].
    apply quotient_outer_join. assumption.
Qed.

(** The amended C1 on the two-day energy series, through both entry points. *)
Lemma normalized_index_is_outer_join_witness :
  strictly_increasing (stamps (index energy_two_days)) = true /\
  (exists out energy_dc,
      normalize_with_pvwatts infer_freq_regular energy_two_days kws_three_days
        = inr out /\
      outer_join_index energy_two_days energy_dc out) /\
  (exists out log' energy_dc,
      normalize_with_sapm constant_sky_effective_poa infer_freq_regular
        energy_two_days sapm_kws_three_days [] = (inr out, log') /\
      outer_join_index energy_two_days energy_dc out).
Proof.
  assert (Hinc : strictly_increasing (stamps (index energy_two_days)) = true)
    by reflexivity.
  destruct (normalized_index_is_outer_join float float64 infer_freq_regular
              energy_two_days Hinc) as [Hp Hs].
  split; [exact Hinc|]. split.
  - destruct (normalize_with_pvwatts infer_freq_regular energy_two_days
                kws_three_days) as [e|out] eqn:E; [vm_compute in E; discriminate E|].
    destruct (Hp kws_three_days out E) as (d & _ & Hd).
    exists out, d. split; [reflexivity | exact Hd].
  - destruct (normalize_with_sapm constant_sky_effective_poa infer_freq_regular
                energy_two_days sapm_kws_three_days []) as [[e|out] log'] eqn:E;
      [vm_compute in E; discriminate E|].
    destruct (Hs unit constant_sky_effective_poa sapm_kws_three_days [] out log' E)
      as (fr & dc & d & _ & _ & _ & Hd).
    exists out, log', d. split; [reflexivity | exact Hd].
Defined.

(** C4. When the energy index carries a frequency, both entry points
    resample with that frequency, whatever inference would answer; only when
    it carries none do they ask for an inferred one. *)
Theorem explicit_frequency_used_verbatim :
  forall (num : Type) (N : Numeric num)
         (infer_freq : DatetimeIndex -> Result (option Freq))
         (energy : Series num),
    (forall f : Freq,
        freq (index energy) = Some f ->
        (forall kws : PvwattsKws num,
            normalize_with_pvwatts infer_freq energy kws
            = rbind (resample_sum (call_pvwatts_dc_power kws) (Some f))
                (fun energy_dc => ok (series_binop ndiv energy energy_dc))) /\
        (forall (ModuleParameters : Type) sapm_effective_poa_global
                (kws : SapmKws num ModuleParameters) log,
            normalize_with_sapm sapm_effective_poa_global infer_freq energy kws log
            = let r := sapm_dc_power sapm_effective_poa_global
                         (kw_pvlib_pvsystem kws) (kw_sapm_poa_global kws) log in
              (rbind (fst r) (fun dc_power =>
                 rbind (resample_sum dc_power (Some f)) (fun energy_dc =>
                   ok (series_binop ndiv energy energy_dc))),
               snd r))) /\
    (freq (index energy) = None ->
     (forall kws : PvwattsKws num,
         normalize_with_pvwatts infer_freq energy kws
         = rbind (infer_freq (index energy)) (fun fr =>
             rbind (resample_sum (call_pvwatts_dc_power kws) fr)
               (fun energy_dc => ok (series_binop ndiv energy energy_dc)))) /\
     (forall (ModuleParameters : Type) sapm_effective_poa_global
             (kws : SapmKws num ModuleParameters) log,
         normalize_with_sapm sapm_effective_poa_global infer_freq energy kws log
         = match infer_freq (index energy) with
           | inl e => (inl e, log)
           | inr fr =>
               let r := sapm_dc_power sapm_effective_poa_global
                          (kw_pvlib_pvsystem kws) (kw_sapm_poa_global kws) log in
               (rbind (fst r) (fun dc_power =>
                  rbind (resample_sum dc_power fr) (fun energy_dc =>
                    ok (series_binop ndiv energy energy_dc))),
                snd r)
           end)).
Proof.
  intros num N infer energy. split.
  - intros f Hf. split.
    + intros kws. unfold normalize_with_pvwatts. rewrite Hf. reflexivity.
    + intros M eff kws log. rewrite normalize_with_sapm_run.
      unfold resolve_freq. rewrite Hf. reflexivity.
  - intros Hf. split.
    + intros kws. unfold normalize_with_pvwatts. rewrite Hf. reflexivity.
    + intros M eff kws log. rewrite normalize_with_sapm_run.
      unfold resolve_freq. rewrite Hf. reflexivity.
Qed.

(** C4 on two days of energy marked daily, where inference itself would
    raise for want of a third timestamp, and on three unmarked days. *)
Lemma explicit_frequency_used_verbatim_witness :
  (freq (index energy_two_days) = Some (Tick daily) /\
   is_ok (infer_freq_regular (index energy_two_days)) = false /\
   normalize_with_pvwatts infer_freq_regular energy_two_days kws_three_days
   = rbind (resample_sum (call_pvwatts_dc_power kws_three_days) (Some (Tick daily)))
       (fun energy_dc => ok (series_binop ndiv energy_two_days energy_dc))) /\
  (freq (index energy_three_days) = None /\
   normalize_with_pvwatts infer_freq_regular energy_three_days kws_three_days
   = rbind (infer_freq_regular (index energy_three_days)) (fun fr =>
       rbind (resample_sum (call_pvwatts_dc_power kws_three_days) fr)
         (fun energy_dc => ok (series_binop ndiv energy_three_days energy_dc)))).
Proof.
  split.
  - split; [reflexivity|]. split; [reflexivity|].
    exact (proj1 (proj1 (explicit_frequency_used_verbatim float float64
                           infer_freq_regular energy_two_days)
                    (Tick daily) eq_refl) kws_three_days).
  - split; [reflexivity|].
    exact (proj1 (proj2 (explicit_frequency_used_verbatim float float64
                           infer_freq_regular energy_three_days) eq_refl)
             kws_three_days).
Defined.

(** C5, as stated, fails: on daily energy with a missing day inference
    raises nothing (it answers that there is no frequency), and the errors of
    the two calls are not errors of the frequency.  [normalize_with_sapm],
    given a frame without its DHI column, raises the [KeyError] of that
    column; [normalize_with_pvwatts] raises the [AttributeError] of the
    resampling. *)
Lemma irregular_energy_error_is_not_of_inference :
  freq (index energy_with_gap) = None /\
  infer_freq_regular (index energy_with_gap) = inr None /\
  normalize_with_sapm constant_sky_effective_poa infer_freq_regular
    energy_with_gap sapm_kws_without_dhi []
  = (inl (KeyError "DHI"),
     [Call_get_solarposition (df_index frame_without_dhi)]) /\
  normalize_with_pvwatts infer_freq_regular energy_with_gap kws_three_days
  = inl (AttributeError "'NoneType' object has no attribute 'rule_code'").
Proof.
  repeat split.
Qed.

(** C5, amended. With no frequency on the energy index: an error raised by
    inference is the error of both entry points, raised before any pvlib
    call; and when inference answers that there is no frequency, nothing is
    raised at that point: [normalize_with_pvwatts] raises the
    [AttributeError] of the resampling, and [normalize_with_sapm] runs the
    SAPM chain first and raises the error of the chain if it has one, that
    [AttributeError] otherwise, after the calls of the chain.  In each case no
    series is returned. *)
Theorem unresolved_frequency_is_fatal :
  forall (num : Type) (N : Numeric num)
         (infer_freq : DatetimeIndex -> Result (option Freq))
         (energy : Series num),
    freq (index energy) = None ->
    (forall e : Error,
        infer_freq (index energy) = inl e ->
        (forall kws : PvwattsKws num,
            normalize_with_pvwatts infer_freq energy kws = inl e) /\
        (forall (ModuleParameters : Type) sapm_effective_poa_global
                (kws : SapmKws num ModuleParameters) log,
            normalize_with_sapm sapm_effective_poa_global infer_freq energy kws log
            = (inl e, log))) /\
    (infer_freq (index energy) = inr None ->
     (forall kws : PvwattsKws num,
         normalize_with_pvwatts infer_freq energy kws
         = inl (AttributeError "'NoneType' object has no attribute 'rule_code'")) /\
     (forall (ModuleParameters : Type) sapm_effective_poa_global
             (kws : SapmKws num ModuleParameters) log,
         normalize_with_sapm sapm_effective_poa_global infer_freq energy kws log
         = let r := sapm_dc_power sapm_effective_poa_global
                      (kw_pvlib_pvsystem kws) (kw_sapm_poa_global kws) log in
           (match fst r with
            | inl e => inl e
            | inr _ =>
                inl (AttributeError
                       "'NoneType' object has no attribute 'rule_code'")
            end,
            snd r))).
Proof.
  intros num N infer energy Hf. split.
  - intros e He. split.
    + intros kws. unfold normalize_with_pvwatts. rewrite Hf, He. reflexivity.
    + intros M eff kws log. rewrite normalize_with_sapm_run.
      unfold resolve_freq. rewrite Hf, He. reflexivity.
  - intros He. split.
    + intros kws. unfold normalize_with_pvwatts. rewrite Hf, He. reflexivity.
    + intros M eff kws log. rewrite normalize_with_sapm_run.
      unfold resolve_freq. rewrite Hf, He. cbv zeta.
      destruct (sapm_dc_power eff _ _ log) as [[e|dc] log']; reflexivity.
Qed.

(** The amended C5 on a single reading, where inference raises, and on the
    daily series with a missing day, where it finds no frequency: under the
    constant sky the chain makes its seven calls before the resampling
    raises. *)
Lemma unresolved_frequency_is_fatal_witness :
  (freq (index poa_reference) = None /\
   infer_freq_regular (index poa_reference)
   = inl (ValueError "Need at least 3 dates to infer frequency") /\
   normalize_with_pvwatts infer_freq_regular poa_reference kws_three_days
   = inl (ValueError "Need at least 3 dates to infer frequency") /\
   normalize_with_sapm constant_sky_effective_poa infer_freq_regular
     poa_reference sapm_kws_one_day []
   = (inl (ValueError "Need at least 3 dates to infer frequency"), [])) /\
  (freq (index energy_with_gap) = None /\
   infer_freq_regular (index energy_with_gap) = inr None /\
   normalize_with_pvwatts infer_freq_regular energy_with_gap kws_three_days
   = inl (AttributeError "'NoneType' object has no attribute 'rule_code'") /\
   exists log',
     normalize_with_sapm constant_sky_effective_poa infer_freq_regular
       energy_with_gap sapm_kws_one_day []
     = (inl (AttributeError "'NoneType' object has no attribute 'rule_code'"),
        log') /\
     map stage log' = [1; 2; 3; 4; 5; 6; 7]%nat).
Proof.
  destruct (unresolved_frequency_is_fatal float float64 infer_freq_regular
              poa_reference eq_refl) as [Hraise _].
  destruct (Hraise (ValueError "Need at least 3 dates to infer frequency")
              eq_refl) as [Hp1 Hs1].
  destruct (unresolved_frequency_is_fatal float float64 infer_freq_regular
              energy_with_gap eq_refl) as [_ Hnone].
  destruct (Hnone eq_refl) as [Hp2 Hs2].
  split.
  - split; [reflexivity|]. split; [reflexivity|].
    split; [exact (Hp1 kws_three_days)|].
    exact (Hs1 unit constant_sky_effective_poa sapm_kws_one_day []).
  - split; [reflexivity|]. split; [reflexivity|].
    split; [exact (Hp2 kws_three_days)|].
    eexists. split.
    + rewrite (Hs2 unit constant_sky_effective_poa sapm_kws_one_day []).
      vm_compute. reflexivity.
    + reflexivity.
Defined.




(** C10. The series that [normalize_with_pvwatts] divides by is computed from
    the index of the energy series and the keywords: two energy series with
    the same index fail with the same error or are divided by the same
    series, and every returned row is the energy at its timestamp over that
    series at its timestamp. *)
Theorem denominator_ignores_energy_values :
  forall (num : Type) (N : Numeric num)
         (infer_freq : DatetimeIndex -> Result (option Freq))
         (energy1 energy2 : Series num) (kws : PvwattsKws num),
    index energy1 = index energy2 ->
    match pvwatts_energy_dc infer_freq (index energy1) kws with
    | inl e =>
        normalize_with_pvwatts infer_freq energy1 kws = inl e /\
        normalize_with_pvwatts infer_freq energy2 kws = inl e
    | inr energy_dc =>
        exists out1 out2,
          normalize_with_pvwatts infer_freq energy1 kws = inr out1 /\
          normalize_with_pvwatts infer_freq energy2 kws = inr out2 /\
          stamps (index out1) = stamps (index out2) /\
          (forall t, In t (stamps (index out1)) ->
                     at_ out1 t = ndiv (at_ energy1 t) (at_ energy_dc t) /\
                     at_ out2 t = ndiv (at_ energy2 t) (at_ energy_dc t))
    end.
Proof.
  intros num N infer e1 e2 kws Hidx.
  rewrite (normalize_with_pvwatts_run infer e1 kws).
  rewrite (normalize_with_pvwatts_run infer e2 kws).
  rewrite <- Hidx.
  destruct (pvwatts_energy_dc infer (index e1) kws) as [e|d]; simpl.
  - split; reflexivity.
  - assert (Hst : stamps (index (series_binop ndiv e1 d))
                  = stamps (index (series_binop ndiv e2 d))).
    { rewrite !series_binop_stamps.
      change (map fst (rows e1)) with (stamps (index e1)).
      change (map fst (rows e2)) with (stamps (index e2)).
      rewrite <- Hidx. reflexivity. }
    exists (series_binop ndiv e1 d), (series_binop ndiv e2 d).
    split; [reflexivity|]. split; [reflexivity|]. split; [exact Hst|].
    intros t Ht. split; apply series_binop_at; [exact Ht|].
    rewrite <- Hst. exact Ht.
Qed.

(** C10 on two energy series over the same two days, one half the other. *)
Lemma denominator_ignores_energy_values_witness :
  index energy_two_days = index energy_two_days_half /\
  exists energy_dc out1 out2,
    pvwatts_energy_dc infer_freq_regular (index energy_two_days) kws_three_days
      = inr energy_dc /\
    normalize_with_pvwatts infer_freq_regular energy_two_days kws_three_days
      = inr out1 /\
    normalize_with_pvwatts infer_freq_regular energy_two_days_half kws_three_days
      = inr out2 /\
    (forall t, In t (stamps (index out1)) ->
               at_ out1 t = ndiv (at_ energy_two_days t) (at_ energy_dc t) /\
               at_ out2 t = ndiv (at_ energy_two_days_half t) (at_ energy_dc t)).
Proof.
  split; [reflexivity|].
  pose proof (denominator_ignores_energy_values float float64 infer_freq_regular
                energy_two_days energy_two_days_half kws_three_days eq_refl) as H.
  destruct (pvwatts_energy_dc infer_freq_regular (index energy_two_days)
              kws_three_days) as [e|d] eqn:E; [vm_compute in E; discriminate E|].
  destruct H as (o1 & o2 & H1 & H2 & _ & H3).
  exists d, o1, o2. split; [reflexivity|]. split; [exact H1|].
  split; [exact H2 | exact H3].
Defined.

(** ** sapm_dc_power *)

Section SAPMFacts.

Context {num : Type} `{N : Numeric num} {ModuleParameters : Type}.

Variable sapm_effective_poa_global :
  Series num -> Series num -> Series num -> Series num ->
  ModuleParameters -> num -> Result (Series num).

Ltac run_chain :=
  cbv beta iota delta [sapm_dc_power tbind invoke pure tret].

Ltac stop_here :=
  eexists; split;
  [ cbn [snd]; rewrite <- ?app_assoc; cbn [app]; reflexivity
  | split; [reflexivity | cbn [fst is_ok]; intros; try discriminate; reflexivity] ].

Ltac next_step :=
  match goal with
  | |- context [match ?r with inl _ => _ | inr _ => _ end] =>
      destruct r; [stop_here|]
  end.

(** Whatever the outcome, the calls made are the stages in order, from the
    first one on; a run that returns made all seven. *)
Lemma sapm_dc_power_stages (pvlib_pvsystem : LocalizedPVSystem num ModuleParameters)
    (poa_global : DataFrame num) (log : list (Call num ModuleParameters)) :
  exists calls,
    snd (sapm_dc_power sapm_effective_poa_global pvlib_pvsystem poa_global log)
      = log ++ calls /\
    map stage calls = seq 1 (List.length calls) /\
    (is_ok (fst (sapm_dc_power sapm_effective_poa_global pvlib_pvsystem
                   poa_global log)) = true ->
     List.length calls = 7%nat).
Proof.
  run_chain. repeat next_step. stop_here.
Qed.

End SAPMFacts.

(** C9. [sapm_dc_power] calls, in this order: solar position on the frame's
    index; plane-of-array irradiance from zenith, azimuth, DNI, GHI and DHI;
    angle of incidence from zenith and azimuth; air mass with the model
    kastenyoung1989, of which it takes the absolute air mass; effective
    irradiance from the direct and diffuse plane-of-array components, the
    absolute air mass, the angle of incidence and the module, with reference
    irradiance 1; cell temperature from total plane-of-array irradiance, wind
    speed and ambient temperature; and DC power from effective irradiance and
    cell temperature, which it returns.  On every run, returning or not, the
    calls made are these stages in order from the first. *)
Theorem sapm_dc_power_pipeline :
  forall (num : Type) (N : Numeric num) (ModuleParameters : Type)
         (sapm_effective_poa_global :
            Series num -> Series num -> Series num -> Series num ->
            ModuleParameters -> num -> Result (Series num))
         (pvlib_pvsystem : LocalizedPVSystem num ModuleParameters)
         (poa_global : DataFrame num) (log : list (Call num ModuleParameters)),
    (forall solar_position zenith azimuth dni ghi dhi total_irradiance aoi
            airmass airmass_absolute poa_direct poa_diffuse effective_poa
            irrad wind temp temp_cell temp_cell_col dc_power,
        get_solarposition pvlib_pvsystem (df_index poa_global)
          = inr solar_position ->
        getitem solar_position "zenith" = inr zenith ->
        getitem solar_position "azimuth" = inr azimuth ->
        getitem poa_global "DNI" = inr dni ->
        getitem poa_global "GHI" = inr ghi ->
        getitem poa_global "DHI" = inr dhi ->
        get_poa_global pvlib_pvsystem zenith azimuth dni ghi dhi
          = inr total_irradiance ->
        get_aoi pvlib_pvsystem zenith azimuth = inr aoi ->
        get_airmass pvlib_pvsystem solar_position "kastenyoung1989"
          = inr airmass ->
        getitem airmass "airmass_absolute" = inr airmass_absolute ->
        getitem total_irradiance "poa_direct" = inr poa_direct ->
        getitem total_irradiance "poa_diffuse" = inr poa_diffuse ->
        sapm_effective_poa_global poa_direct poa_diffuse airmass_absolute aoi
          (module pvlib_pvsystem) (of_int 1) = inr effective_poa ->
        getitem total_irradiance "poa_global" = inr irrad ->
        getitem poa_global "Wind Speed" = inr wind ->
        getitem poa_global "Temperature" = inr temp ->
        sapm_celltemp pvlib_pvsystem irrad wind temp = inr temp_cell ->
        getitem temp_cell "temp_cell" = inr temp_cell_col ->
        pvwatts_dc pvlib_pvsystem effective_poa temp_cell_col = inr dc_power ->
        sapm_dc_power sapm_effective_poa_global pvlib_pvsystem poa_global log
        = (inr dc_power,
           log ++
           [Call_get_solarposition (df_index poa_global);
            Call_get_poa_global zenith azimuth dni ghi dhi;
            Call_get_aoi zenith azimuth;
            Call_get_airmass solar_position "kastenyoung1989";
            Call_sapm_effective_poa_global poa_direct poa_diffuse
              airmass_absolute aoi (module pvlib_pvsystem) (of_int 1);
            Call_sapm_celltemp irrad wind temp;
            Call_pvwatts_dc effective_poa temp_cell_col])) /\
    (exists calls,
        snd (sapm_dc_power sapm_effective_poa_global pvlib_pvsystem poa_global log)
          = log ++ calls /\
        map stage calls = seq 1 (List.length calls) /\
        (is_ok (fst (sapm_dc_power sapm_effective_poa_global pvlib_pvsystem
                       poa_global log)) = true ->
         List.length calls = 7%nat)).
Proof.
  intros num N M eff sys frame log. split; [|apply sapm_dc_power_stages].
  intros sp zen az dni ghi dhi ti aoi am ama pd pdf ep irr wind temp tc tcc dc
         H1 H2 H3 H4 H5 H6 H7 H8 H9 H10 H11 H12 H13 H14 H15 H16 H17 H18 H19.
  cbv beta iota delta [sapm_dc_power tbind invoke pure tret].
  rewrite H1; cbv beta iota. rewrite H2, H3, H4, H5, H6; cbv beta iota.
  rewrite H7; cbv beta iota.
  rewrite H8; cbv beta iota. rewrite H9; cbv beta iota.
  rewrite H10, H11, H12; cbv beta iota. rewrite H13; cbv beta iota.
  rewrite H14, H15, H16; cbv beta iota. rewrite H17; cbv beta iota.
  rewrite H18; cbv beta iota. rewrite H19; cbv beta iota.
  unfold ok. f_equal. rewrite <- !app_assoc. reflexivity.
Qed.

(** C9 under the constant sky: the chain returns 300 W at every hour. *)
Lemma sapm_dc_power_pipeline_witness :
  exists calls,
    sapm_dc_power constant_sky_effective_poa constant_sky_system frame_one_day []
      = (inr (smap (fun _ => 300%float) poa_one_day), calls) /\
    map stage calls = [1; 2; 3; 4; 5; 6; 7]%nat.
Proof.
  eexists. split.
  - eapply (proj1 (sapm_dc_power_pipeline float float64 unit
                     constant_sky_effective_poa constant_sky_system
                     frame_one_day []));
      try (vm_compute; reflexivity).
  - reflexivity.
Defined.

(** ** Scenarios *)

(** Constant 1000 W/m2 for 24 hours at 300 W nameplate is 300 W throughout;
    summed to one day it is 7200, and 7200 Wh measured gives the ratio 1. *)
Example constant_day_power :
  values (call_pvwatts_dc_power kws_one_day) = repeat 300%float 24.
Proof. reflexivity. Qed.

Example constant_day_ratio :
  normalize_with_pvwatts infer_freq_regular energy_one_day kws_one_day
  = inr {| rows := [(0, 1%float)]; sfreq := Some (Tick daily) |}.
Proof. reflexivity. Qed.

(** With a cell at 35 degrees and a coefficient of -0.004 the factor is 0.96,
    the power 288 W and the ratio 7200 / 6912. *)
Example warm_day_power :
  values (call_pvwatts_dc_power kws_one_day_warm) = repeat 288%float 24.
Proof. reflexivity. Qed.

Example warm_day_ratio :
  normalize_with_pvwatts infer_freq_regular energy_one_day kws_one_day_warm
  = inr {| rows := [(0, (7200 / 6912)%float)]; sfreq := Some (Tick daily) |}.
Proof. reflexivity. Qed.

(** Three days of energy against one day of irradiance: one ratio and two
    missing values, on the energy index. *)
Example energy_beyond_model_data :
  exists out,
    normalize_with_pvwatts infer_freq_regular energy_three_days kws_one_day
      = inr out /\
    rows out = [(0, 1%float); (86400, PrimFloat.nan); (172800, PrimFloat.nan)].
Proof. eexists. split; reflexivity. Qed.

(** The SAPM entry point agrees on the constant day. *)
Example constant_day_ratio_sapm :
  fst (normalize_with_sapm constant_sky_effective_poa infer_freq_regular
         energy_one_day sapm_kws_one_day [])
  = inr {| rows := [(0, 1%float)]; sfreq := Some (Tick daily) |}.
Proof. reflexivity. Qed.

(** A frame without its DHI column stops the chain after the first call. *)
Example missing_column_is_fatal :
  exists log,
    sapm_dc_power constant_sky_effective_poa constant_sky_system
      frame_without_dhi [] = (inl (KeyError "DHI"), log) /\
    map stage log = [1%nat].
Proof. eexists. split; reflexivity. Qed.

(** A cell temperature indexed off the irradiance leaves no row defined,
    even at reference conditions. *)
Example misaligned_cell_temperature :
  pvwatts_dc_power poa_single_exact (Some (Q2Qc 300)) (Some T_cell_late_exact)
    (Some (Q2Qc 1000)) (Some (Q2Qc 25)) (Some (Some (Q2Qc 0)))
  = {| rows := [(0, None); (3600, None)]; sfreq := None |}.
Proof. reflexivity. Qed.

(** ** Further properties of pvwatts_dc_power *)

#[export] Instance float64_nan_propagating : NanPropagating float.
Proof.
  split.
  - intros x. apply Prim2SF_inj. simpl. rewrite mul_spec. reflexivity.
  - intros x. apply Prim2SF_inj. simpl. rewrite mul_spec.
    change (Prim2SF PrimFloat.nan) with S754_nan.
    unfold SF64mul, SFmul. destruct (Prim2SF x); reflexivity.
Qed.

#[export] Instance exact_nan_propagating : NanPropagating exact.
Proof.
  split.
  - intros x. reflexivity.
  - intros [x|]; reflexivity.
Qed.

Section MorePVWattsFacts.

Context {num : Type} `{N : Numeric num}.

Lemma smap_index (f : num -> num) (s : Series num) :
  index (smap f s) = index s.
Proof.
  unfold index. f_equal. exact (smap_stamps f s).
Qed.

Lemma smap_at_missing (f : num -> num) (s : Series num) (t : Timestamp) :
  ~ In t (stamps (index s)) -> at_ (smap f s) t = nan.
Proof.
  intros Hnin. unfold at_. apply lookup_missing.
  change (map fst (rows (smap f s))) with (stamps (index (smap f s))).
  rewrite smap_stamps. exact Hnin.
Qed.

End MorePVWattsFacts.

(** X1. [pvwatts_dc_power] drops no irradiance sample.  Without the
    correction, or with a cell temperature indexed like the irradiance, the
    result has the index of the irradiance (labels and frequency); with any
    cell temperature its labels are those of the irradiance and of the cell
    temperature together. *)
Theorem pvwatts_keeps_irradiance_samples :
  forall (num : Type) (N : Numeric num) (poa_global : Series num)
         (P_stc G_stc T_stc : num),
    (forall (T_cell : option (Series num)) (gamma_pdc : option num),
        T_cell = None \/ gamma_pdc = None ->
        index (pvwatts_dc_power poa_global P_stc T_cell G_stc T_stc gamma_pdc)
        = index poa_global) /\
    (forall (T_cell : Series num) (gamma_pdc : num) (t : Timestamp),
        In t (stamps (index (pvwatts_dc_power poa_global P_stc (Some T_cell)
                               G_stc T_stc (Some gamma_pdc))))
        <-> In t (stamps (index poa_global)) \/ In t (stamps (index T_cell))) /\
    (forall (T_cell : Series num) (gamma_pdc : num),
        stamps (index T_cell) = stamps (index poa_global) ->
        index (pvwatts_dc_power poa_global P_stc (Some T_cell) G_stc T_stc
                 (Some gamma_pdc))
        = index poa_global).
Proof.
  intros num N poa P G T. split; [|split].
  - intros Tc gam H. rewrite pvwatts_inactive by exact H. apply smap_index.
  - intros Tc gam t. rewrite pvwatts_active, series_binop_members.
    rewrite !smap_stamps. tauto.
  - intros Tc gam E. rewrite pvwatts_active_aligned by exact E.
    unfold index. simpl. f_equal.
    apply zip_with_stamps. symmetry. exact E.
Qed.

(** X1 on the warm day. *)
Lemma pvwatts_keeps_irradiance_samples_witness :
  ((None (A := Series float) = None \/ Some (-0.004)%float = None) /\
   index (pvwatts_dc_power poa_one_day 300%float None 1000%float 25%float
            (Some (-0.004)%float))
   = index poa_one_day) /\
  (stamps (index T_cell_35) = stamps (index poa_one_day) /\
   index (pvwatts_dc_power poa_one_day 300%float (Some T_cell_35) 1000%float
            25%float (Some (-0.004)%float))
   = index poa_one_day).
Proof.
  destruct (pvwatts_keeps_irradiance_samples float float64 poa_one_day
              300%float 1000%float 25%float) as (H1 & _ & H3).
  split; split.
  - left; reflexivity.
  - apply H1. left; reflexivity.
  - reflexivity.
  - apply H3. reflexivity.
Defined.

(** X2. With both temperature arguments supplied, a timestamp that only one
    of the irradiance and the cell temperature has appears in the result with
    a missing power: nothing is interpolated or carried over, for any
    arithmetic in which a product with a missing factor is missing. *)
Theorem pvwatts_unmatched_sample_is_missing :
  forall (num : Type) (N : Numeric num) (NP : NanPropagating num)
         (poa_global T_cell : Series num) (P_stc G_stc T_stc gamma_pdc : num)
         (t : Timestamp),
    (In t (stamps (index poa_global)) /\ ~ In t (stamps (index T_cell))) \/
    (In t (stamps (index T_cell)) /\ ~ In t (stamps (index poa_global))) ->
    In t (stamps (index (pvwatts_dc_power poa_global P_stc (Some T_cell) G_stc
                           T_stc (Some gamma_pdc)))) /\
    at_ (pvwatts_dc_power poa_global P_stc (Some T_cell) G_stc T_stc
           (Some gamma_pdc)) t = nan.
Proof.
  intros num N NP poa Tc P G T gam t H.
  rewrite pvwatts_active.
  assert (Hin : In t (stamps (index (series_binop nmul
                   (smap (fun g => ndiv (nmul P g) G) poa)
                   (smap (fun tc => nadd (of_int 1) (nmul gam (nsub tc T))) Tc))))).
  { apply series_binop_members. rewrite !smap_stamps. tauto. }
  split; [exact Hin|].
  rewrite series_binop_at by exact Hin.
  destruct H as [[_ Hn] | [_ Hn]].
  - rewrite (smap_at_missing _ Tc t Hn). apply nmul_nan_r.
  - rewrite (smap_at_missing _ poa t Hn). apply nmul_nan_l.
Qed.

(** X2 with a cell temperature one hour late: the first hour of irradiance
    and the last hour of temperature have no partner. *)
Lemma pvwatts_unmatched_sample_is_missing_witness :
  (In 0 (stamps (index poa_one_day)) /\ ~ In 0 (stamps (index T_cell_late))) /\
  at_ (pvwatts_dc_power poa_one_day 300%float (Some T_cell_late) 1000%float
         25%float (Some (-0.004)%float)) 0 = PrimFloat.nan /\
  (In 86400 (stamps (index T_cell_late)) /\
   ~ In 86400 (stamps (index poa_one_day))) /\
  at_ (pvwatts_dc_power poa_one_day 300%float (Some T_cell_late) 1000%float
         25%float (Some (-0.004)%float)) 86400 = PrimFloat.nan.
Proof.
  assert (H0 : In 0 (stamps (index poa_one_day)) /\
               ~ In 0 (stamps (index T_cell_late))).
  { split; [left; reflexivity|].
    intros H. vm_compute in H. repeat (destruct H as [H|H]; [discriminate H|]).
    exact H. }
  assert (H1 : In 86400 (stamps (index T_cell_late)) /\
               ~ In 86400 (stamps (index poa_one_day))).
  { split; [vm_compute; tauto|].
    intros H. vm_compute in H. repeat (destruct H as [H|H]; [discriminate H|]).
    exact H. }
  split; [exact H0|]. split.
  - exact (proj2 (pvwatts_unmatched_sample_is_missing float float64
                    float64_nan_propagating poa_one_day T_cell_late 300%float
                    1000%float 25%float (-0.004)%float 0 (or_introl H0))).
  - split; [exact H1|].
    exact (proj2 (pvwatts_unmatched_sample_is_missing float float64
                    float64_nan_propagating poa_one_day T_cell_late 300%float
                    1000%float 25%float (-0.004)%float 86400 (or_intror H1))).
Defined.

(** ** Further properties of sapm_dc_power and normalize_with_sapm *)

Section MoreSAPMFacts.

Context {num : Type} `{N : Numeric num}.

Lemma getitem_missing (df : DataFrame num) (key : string) :
  has_column df key = false -> getitem df key = inl (KeyError key).
Proof.
  unfold has_column, getitem. intros H.
  destruct (find _ (df_columns df)) as [c|] eqn:E; [|reflexivity].
  apply find_some in E. destruct E as [Hin Hc].
  assert (Ht : existsb (fun c => String.eqb key (fst c)) (df_columns df) = true)
    by (apply existsb_exists; exists c; auto).
  rewrite H in Ht. discriminate Ht.
Qed.

Lemma getitem_present (df : DataFrame num) (key : string) :
  has_column df key = true ->
  exists s, getitem df key = inr s /\
            freq (index s) = freq (df_index df) /\
            incl (stamps (index s)) (stamps (df_index df)).
Proof.
  unfold has_column, getitem. intros H.
  destruct (find _ (df_columns df)) as [c|] eqn:E.
  - eexists. split; [reflexivity|]. split; [reflexivity|].
    simpl. intros t Ht. apply in_map_iff in Ht.
    destruct Ht as [[u x] [<- Hin]]. apply in_combine_l in Hin. exact Hin.
  - apply existsb_exists in H. destruct H as [c [Hin Hc]].
    rewrite (find_none _ _ E c Hin) in Hc. discriminate Hc.
Qed.

End MoreSAPMFacts.

Ltac run_sapm_chain :=
  cbv beta iota delta [sapm_dc_power tbind invoke pure tret].

Ltac split_sapm_chain :=
  repeat match goal with
         | |- context [match ?r with inl _ => _ | inr _ => _ end] => destruct r
         end.

(** X3. The five columns DNI, GHI, DHI, Wind Speed and Temperature are all
    required: with any one of them absent from the frame, [sapm_dc_power]
    returns no power, whatever the system descriptor does. *)
Theorem sapm_requires_frame_columns :
  forall (num : Type) (N : Numeric num) (ModuleParameters : Type)
         (sapm_effective_poa_global :
            Series num -> Series num -> Series num -> Series num ->
            ModuleParameters -> num -> Result (Series num))
         (pvlib_pvsystem : LocalizedPVSystem num ModuleParameters)
         (poa_global : DataFrame num) (log : list (Call num ModuleParameters))
         (key : string),
    In key frame_columns ->
    has_column poa_global key = false ->
    is_ok (fst (sapm_dc_power sapm_effective_poa_global pvlib_pvsystem
                  poa_global log)) = false.
Proof.
  intros num N M eff sys frame log key Hkey Hmiss.
  apply getitem_missing in Hmiss.
  unfold frame_columns in Hkey. simpl in Hkey.
  destruct Hkey as [<- | [<- | [<- | [<- | [<- | []]]]]];
    run_sapm_chain; rewrite Hmiss; split_sapm_chain; reflexivity.
Qed.

(** X3 on a frame without its DHI column. *)
Lemma sapm_requires_frame_columns_witness :
  In "DHI"%string frame_columns /\
  has_column frame_without_dhi "DHI" = false /\
  is_ok (fst (sapm_dc_power constant_sky_effective_poa constant_sky_system
                frame_without_dhi [])) = false.
Proof.
  assert (Hk : In "DHI"%string (frame_columns)) by (vm_compute; tauto).
  split; [exact Hk|]. split; [reflexivity|].
  exact (sapm_requires_frame_columns float float64 unit
           constant_sky_effective_poa constant_sky_system frame_without_dhi []
           "DHI"%string Hk eq_refl).
Defined.

(** X4. [sapm_dc_power] computes the solar position before it reads any
    column of the frame.  An error of that first call is returned after that
    one call; and when the solar position has come back with its zenith and
    azimuth, a frame lacking one of DNI, GHI and DHI raises the [KeyError] of
    a lacking column without the transposition ever being called. *)
Theorem sapm_fails_before_transposition :
  forall (num : Type) (N : Numeric num) (ModuleParameters : Type)
         (sapm_effective_poa_global :
            Series num -> Series num -> Series num -> Series num ->
            ModuleParameters -> num -> Result (Series num))
         (pvlib_pvsystem : LocalizedPVSystem num ModuleParameters)
         (poa_global : DataFrame num) (log : list (Call num ModuleParameters)),
    (forall e : Error,
        get_solarposition pvlib_pvsystem (df_index poa_global) = inl e ->
        sapm_dc_power sapm_effective_poa_global pvlib_pvsystem poa_global log
        = (inl e, log ++ [Call_get_solarposition (df_index poa_global)])) /\
    (forall solar_position zenith azimuth,
        get_solarposition pvlib_pvsystem (df_index poa_global)
          = inr solar_position ->
        getitem solar_position "zenith" = inr zenith ->
        getitem solar_position "azimuth" = inr azimuth ->
        has_column poa_global "DNI" && has_column poa_global "GHI"
          && has_column poa_global "DHI" = false ->
        exists key,
          In key ["DNI"; "GHI"; "DHI"]%string /\
          has_column poa_global key = false /\
          sapm_dc_power sapm_effective_poa_global pvlib_pvsystem poa_global log
          = (inl (KeyError key),
             log ++ [Call_get_solarposition (df_index poa_global)])).
Proof.
  intros num N M eff sys frame log. split.
  - intros e He. run_sapm_chain. rewrite He. reflexivity.
  - intros sp zen az Hsp Hzen Haz Hcols.
    destruct (has_column frame "DNI") eqn:Hdni.
    + destruct (getitem_present frame "DNI" Hdni) as (dni & Hd & _).
      destruct (has_column frame "GHI") eqn:Hghi.
      * destruct (getitem_present frame "GHI" Hghi) as (ghi & Hg & _).
        simpl in Hcols.
        exists "DHI"%string. split; [simpl; tauto|]. split; [exact Hcols|].
        apply getitem_missing in Hcols.
        run_sapm_chain. rewrite Hsp; cbv beta iota.
        rewrite Hzen, Haz, Hd, Hg, Hcols. reflexivity.
      * exists "GHI"%string. split; [simpl; tauto|]. split; [exact Hghi|].
        apply getitem_missing in Hghi.
        run_sapm_chain. rewrite Hsp; cbv beta iota.
        rewrite Hzen, Haz, Hd, Hghi. reflexivity.
    + exists "DNI"%string. split; [simpl; tauto|]. split; [exact Hdni|].
      apply getitem_missing in Hdni.
      run_sapm_chain. rewrite Hsp; cbv beta iota.
      rewrite Hzen, Haz, Hdni. reflexivity.
Qed.

(** X4 on the frame without DHI: one call, then [KeyError]. *)
Lemma sapm_fails_before_transposition_witness :
  has_column frame_without_dhi "DNI" && has_column frame_without_dhi "GHI"
    && has_column frame_without_dhi "DHI" = false /\
  exists key,
    In key ["DNI"; "GHI"; "DHI"]%string /\
    has_column frame_without_dhi key = false /\
    sapm_dc_power constant_sky_effective_poa constant_sky_system
      frame_without_dhi []
    = (inl (KeyError key),
       [] ++ [Call_get_solarposition (df_index frame_without_dhi)]).
Proof.
  split; [reflexivity|].
  eapply (proj2 (sapm_fails_before_transposition float float64 unit
                   constant_sky_effective_poa constant_sky_system
                   frame_without_dhi []));
    reflexivity.
Defined.

(** X5. Once the frequency step has not raised, [normalize_with_sapm] makes
    exactly the pvlib calls of [sapm_dc_power], none of its own, and an error
    of the SAPM chain is the error of the normalization. *)
Theorem normalize_with_sapm_calls :
  forall (num : Type) (N : Numeric num) (ModuleParameters : Type)
         (sapm_effective_poa_global :
            Series num -> Series num -> Series num -> Series num ->
            ModuleParameters -> num -> Result (Series num))
         (infer_freq : DatetimeIndex -> Result (option Freq))
         (energy : Series num) (kws : SapmKws num ModuleParameters)
         (log : list (Call num ModuleParameters)) (fr : option Freq),
    resolve_freq infer_freq (index energy) = inr fr ->
    snd (normalize_with_sapm sapm_effective_poa_global infer_freq energy kws log)
    = snd (sapm_dc_power sapm_effective_poa_global (kw_pvlib_pvsystem kws)
             (kw_sapm_poa_global kws) log) /\
    (forall e : Error,
        fst (sapm_dc_power sapm_effective_poa_global (kw_pvlib_pvsystem kws)
               (kw_sapm_poa_global kws) log) = inl e ->
        fst (normalize_with_sapm sapm_effective_poa_global infer_freq energy
               kws log) = inl e).
Proof.
  intros num N M eff infer energy kws log fr Hfr.
  rewrite normalize_with_sapm_run, Hfr. cbv zeta. split; [reflexivity|].
  intros e He. cbn [fst]. rewrite He. reflexivity.
Qed.

(** X5 on the frame without DHI: the [KeyError] of the chain and its single
    call are those of the normalization. *)
Lemma normalize_with_sapm_calls_witness :
  resolve_freq infer_freq_regular (index energy_one_day)
    = inr (Some (Tick daily)) /\
  normalize_with_sapm constant_sky_effective_poa infer_freq_regular
    energy_one_day sapm_kws_without_dhi []
  = (inl (KeyError "DHI"),
     [Call_get_solarposition (df_index frame_without_dhi)]).
Proof.
  split; [reflexivity|].
  destruct (normalize_with_sapm_calls float float64 unit
              constant_sky_effective_poa infer_freq_regular energy_one_day
              sapm_kws_without_dhi [] (Some (Tick daily)) eq_refl) as [Hlog Herr].
  specialize (Herr (KeyError "DHI") eq_refl).
  destruct (normalize_with_sapm constant_sky_effective_poa infer_freq_regular
              energy_one_day sapm_kws_without_dhi []) as [r l].
  simpl in Hlog, Herr. rewrite Hlog, Herr. reflexivity.
Defined.

(** X6. The two entry points differ in the DC model only: whenever the SAPM
    chain returns the series that [pvwatts_dc_power] computes from its
    keywords, [normalize_with_sapm] and [normalize_with_pvwatts] return the
    same result for the same energy series, error or series alike. *)
Theorem normalizations_agree_on_equal_dc_power :
  forall (num : Type) (N : Numeric num) (ModuleParameters : Type)
         (sapm_effective_poa_global :
            Series num -> Series num -> Series num -> Series num ->
            ModuleParameters -> num -> Result (Series num))
         (infer_freq : DatetimeIndex -> Result (option Freq))
         (energy : Series num) (sapm_kws : SapmKws num ModuleParameters)
         (pvwatts_kws : PvwattsKws num)
         (log log' : list (Call num ModuleParameters)),
    sapm_dc_power sapm_effective_poa_global (kw_pvlib_pvsystem sapm_kws)
      (kw_sapm_poa_global sapm_kws) log
    = (inr (call_pvwatts_dc_power pvwatts_kws), log') ->
    fst (normalize_with_sapm sapm_effective_poa_global infer_freq energy
           sapm_kws log)
    = normalize_with_pvwatts infer_freq energy pvwatts_kws.
Proof.
  intros num N M eff infer energy sk pk log log' Hdc.
  rewrite normalize_with_sapm_run, normalize_with_pvwatts_run.
  unfold pvwatts_energy_dc.
  destruct (resolve_freq infer (index energy)) as [e|fr]; [reflexivity|].
  rewrite Hdc. cbv beta iota zeta delta [fst rbind].
  destruct (resample_sum (call_pvwatts_dc_power pk) fr); reflexivity.
Qed.

(** X6 under the constant sky, which delivers the 300 W of the PVWatts day. *)
Lemma normalizations_agree_on_equal_dc_power_witness :
  fst (normalize_with_sapm constant_sky_effective_poa infer_freq_regular
         energy_three_days sapm_kws_one_day [])
  = normalize_with_pvwatts infer_freq_regular energy_three_days kws_one_day.
Proof.
  destruct (sapm_dc_power constant_sky_effective_poa
              (kw_pvlib_pvsystem sapm_kws_one_day)
              (kw_sapm_poa_global sapm_kws_one_day) [])
    as [r log'] eqn:E.
  assert (Hr : r = inr (call_pvwatts_dc_power kws_one_day))
    by (apply (f_equal fst) in E; vm_compute in E; rewrite <- E; reflexivity).
  rewrite Hr in E.
  exact (normalizations_agree_on_equal_dc_power float float64 unit
           constant_sky_effective_poa infer_freq_regular energy_three_days
           sapm_kws_one_day kws_one_day [] log' E).
Defined.

(** ** How scaling passes through alignment and resampling *)

Section ScalingFacts.

Context {num : Type} `{N : Numeric num}.

Lemma lookup_smap (f : num -> num) (t : Timestamp) (l : list (Timestamp * num)) :
  f nan = nan ->
  lookup t (map (fun r => (fst r, f (snd r))) l) = f (lookup t l).
Proof.
  intros Hf. induction l as [|[u x] l IH]; simpl; [symmetry; exact Hf|].
  destruct (Z.eqb t u); [reflexivity | exact IH].
Qed.

Lemma zip_with_map_l (op : num -> num -> num) (f g : num -> num)
    (a b : list (Timestamp * num)) :
  (forall x y, op (f x) y = g (op x y)) ->
  zip_with op (map (fun r => (fst r, f (snd r))) a) b
  = map (fun r => (fst r, g (snd r))) (zip_with op a b).
Proof.
  intros H. revert b; induction a as [|[t x] a IH]; intros [|[u y] b]; simpl;
    try reflexivity.
  rewrite H, IH. reflexivity.
Qed.

Lemma zip_with_map_r (op : num -> num -> num) (f g : num -> num)
    (a b : list (Timestamp * num)) :
  (forall x y, op x (f y) = g (op x y)) ->
  zip_with op a (map (fun r => (fst r, f (snd r))) b)
  = map (fun r => (fst r, g (snd r))) (zip_with op a b).
Proof.
  intros H. revert b; induction a as [|[t x] a IH]; intros [|[u y] b]; simpl;
    try reflexivity.
  rewrite H, IH. reflexivity.
Qed.

(** An operation on the left operand that commutes with [op] and keeps the
    missing-value marker can be applied after the alignment instead. *)
Lemma series_binop_smap_l (op : num -> num -> num) (f g : num -> num)
    (a b : Series num) :
  f nan = nan ->
  (forall x y, op (f x) y = g (op x y)) ->
  series_binop op (smap f a) b = smap g (series_binop op a b).
Proof.
  intros Hf H. unfold series_binop. rewrite smap_stamps.
  destruct (index_equals _ _).
  - unfold smap. simpl. f_equal. apply zip_with_map_l. exact H.
  - unfold smap. simpl. f_equal. rewrite map_map. simpl.
    apply map_ext. intros t. unfold at_. simpl.
    rewrite lookup_smap by exact Hf. rewrite H. reflexivity.
Qed.

Lemma series_binop_smap_r (op : num -> num -> num) (f g : num -> num)
    (a b : Series num) :
  f nan = nan ->
  (forall x y, op x (f y) = g (op x y)) ->
  series_binop op a (smap f b) = smap g (series_binop op a b).
Proof.
  intros Hf H. unfold series_binop. rewrite smap_stamps.
  destruct (index_equals _ _).
  - unfold smap. simpl. f_equal. apply zip_with_map_r. exact H.
  - unfold smap. simpl. f_equal. rewrite map_map. simpl.
    apply map_ext. intros t. unfold at_. simpl.
    rewrite lookup_smap by exact Hf. rewrite H. reflexivity.
Qed.

Lemma bin_values_smap (f : num -> num) (b p : Z) (l : list (Timestamp * num)) :
  bin_values b p (map (fun r => (fst r, f (snd r))) l)
  = map f (bin_values b p l).
Proof.
  unfold bin_values. induction l as [|[t x] l IH]; simpl; [reflexivity|].
  destruct (Z.leb b t && Z.ltb t (b + p)); simpl; rewrite IH; reflexivity.
Qed.

(** Resampling commutes with an operation that commutes with the sum of a
    bin. *)
Lemma resample_sum_smap (f : num -> num) (s : Series num) (fr : option Freq) :
  (forall l, sum_skipna (map f l) = f (sum_skipna l)) ->
  resample_sum (smap f s) fr = rmap (smap f) (resample_sum s fr).
Proof.
  intros Hsum. unfold resample_sum, rmap.
  destruct fr as [fr|]; [|reflexivity].
  change (rows (smap f s)) with (map (fun r => (fst r, f (snd r))) (rows s)).
  destruct (rows s) as [|[t0 x] l]; [reflexivity|].
  cbn [map fst snd rbind ok].
  assert (Hst : map fst (map (fun r : Timestamp * num => (fst r, f (snd r))) l)
                = map fst l)
    by (rewrite map_map; apply map_ext; reflexivity).
  rewrite Hst. unfold smap. cbn [rows sfreq]. f_equal. f_equal.
  rewrite map_map. apply map_ext. intros b. cbn [fst snd].
  rewrite <- Hsum.
  rewrite <- (bin_values_smap f b (period fr) ((t0, x) :: l)). reflexivity.
Qed.

(** Scaling the energy, in general form. *)
Lemma normalize_with_pvwatts_smap
    (infer_freq : DatetimeIndex -> Result (option Freq)) (f g : num -> num)
    (energy : Series num) (kws : PvwattsKws num) :
  f nan = nan ->
  (forall x y, ndiv (f x) y = g (ndiv x y)) ->
  normalize_with_pvwatts infer_freq (smap f energy) kws
  = rmap (smap g) (normalize_with_pvwatts infer_freq energy kws).
Proof.
  intros Hf H. rewrite !normalize_with_pvwatts_run, smap_index.
  unfold rmap.
  destruct (pvwatts_energy_dc infer_freq (index energy) kws) as [e|d];
    [reflexivity|].
  simpl. unfold ok. f_equal. apply series_binop_smap_l; assumption.
Qed.

End ScalingFacts.

(** ** Scaling laws in exact arithmetic *)

Section ExactScaling.

Local Open Scope Qc_scope.

Lemma exact_mul_assoc (k x y : exact) :
  nmul (nmul k x) y = nmul k (nmul x y).
Proof.
  destruct k, x, y; simpl; try reflexivity. f_equal. ring.
Qed.

Lemma exact_div_scale_l (k x y : exact) :
  ndiv (nmul k x) y = nmul k (ndiv x y).
Proof.
  destruct k as [k|], x as [x|], y as [y|]; simpl; try reflexivity.
  destruct (Qc_eq_dec y (Q2Qc 0)); [reflexivity|].
  f_equal. unfold Qcdiv. ring.
Qed.

Lemma exact_div_scale_r (q : Qc) (x y : exact) :
  q <> 0 ->
  ndiv x (nmul (Some q) y) = ndiv (ndiv x y) (Some q).
Proof.
  intros Hq. destruct x as [x|], y as [y|]; simpl; try reflexivity.
  destruct (Qc_eq_dec y (Q2Qc 0)) as [->|Hy].
  - destruct (Qc_eq_dec (q * Q2Qc 0) (Q2Qc 0)) as [_|Hn]; [reflexivity|].
    exfalso. apply Hn. ring.
  - destruct (Qc_eq_dec (q * y) (Q2Qc 0)) as [E|_].
    + exfalso. destruct (Qcmult_integral _ _ E); contradiction.
    + simpl. destruct (Qc_eq_dec q (Q2Qc 0)); [contradiction|].
      f_equal. field. split; assumption.
Qed.

Lemma exact_fold_scale (q : Qc) (l : list exact) (a : Qc) :
  fold_left nadd (filter (fun x => negb (isnan x)) (map (nmul (Some q)) l))
    (Some (q * a))
  = nmul (Some q)
      (fold_left nadd (filter (fun x => negb (isnan x)) l) (Some a)).
Proof.
  revert a. induction l as [|[x|] l IH]; intros a; simpl; [reflexivity| |].
  - replace (q * a + q * x) with (q * (a + x)) by ring. apply IH.
  - apply IH.
Qed.

Lemma exact_sum_scale (q : Qc) (l : list exact) :
  sum_skipna (map (nmul (Some q)) l) = nmul (Some q) (sum_skipna l).
Proof.
  unfold sum_skipna. change (of_int 0) with (Some 0).
  rewrite <- (exact_fold_scale q l 0). rewrite Qcmult_0_r. reflexivity.
Qed.

(** The nameplate power is a common factor of every row, corrected or not. *)
Lemma exact_pvwatts_nameplate (poa_global : Series exact) (P_stc G_stc T_stc k : exact)
    (T_cell : option (Series exact)) (gamma_pdc : option exact) :
  pvwatts_dc_power poa_global (nmul k P_stc) T_cell G_stc T_stc gamma_pdc
  = smap (nmul k) (pvwatts_dc_power poa_global P_stc T_cell G_stc T_stc gamma_pdc).
Proof.
  assert (Hbase : smap (fun g => ndiv (nmul (nmul k P_stc) g) G_stc) poa_global
                  = smap (nmul k)
                      (smap (fun g => ndiv (nmul P_stc g) G_stc) poa_global)).
  { rewrite smap_smap. unfold smap. f_equal. apply map_ext. intros [t x].
    cbn [fst snd]. f_equal. rewrite exact_mul_assoc. apply exact_div_scale_l. }
  destruct T_cell as [Tc|], gamma_pdc as [gam|];
    try (rewrite !pvwatts_inactive by auto; exact Hbase).
  rewrite !pvwatts_active, Hbase.
  apply series_binop_smap_l; [destruct k; reflexivity|].
  intros x y. apply exact_mul_assoc.
Qed.

End ExactScaling.

(** X7. In exact arithmetic the nameplate power is a common factor of the
    modeled power: multiplying [P_stc] by [k] multiplies every row of
    [pvwatts_dc_power] by [k], with the temperature correction or without. *)
Theorem pvwatts_scales_with_nameplate :
  forall (poa_global : Series exact) (P_stc G_stc T_stc k : exact)
         (T_cell : option (Series exact)) (gamma_pdc : option exact),
    pvwatts_dc_power poa_global (nmul k P_stc) T_cell G_stc T_stc gamma_pdc
    = smap (fun x => nmul k x)
        (pvwatts_dc_power poa_global P_stc T_cell G_stc T_stc gamma_pdc).
Proof.
  intros. apply exact_pvwatts_nameplate.
Qed.

(** X8. In exact arithmetic both entry points are homogeneous in the measured
    energy: multiplying every energy value by [k] multiplies every returned
    row by [k], and changes neither whether the call fails nor, for
    [normalize_with_sapm], the calls it makes. *)
Theorem normalized_energy_scales_with_energy :
  forall (infer_freq : DatetimeIndex -> Result (option Freq))
         (energy : Series exact) (k : exact),
    (forall kws : PvwattsKws exact,
        normalize_with_pvwatts infer_freq (smap (fun x => nmul k x) energy) kws
        = rmap (smap (fun x => nmul k x))
            (normalize_with_pvwatts infer_freq energy kws)) /\
    (forall (ModuleParameters : Type) sapm_effective_poa_global
            (kws : SapmKws exact ModuleParameters) log,
        normalize_with_sapm sapm_effective_poa_global infer_freq
          (smap (fun x => nmul k x) energy) kws log
        = (rmap (smap (fun x => nmul k x))
             (fst (normalize_with_sapm sapm_effective_poa_global infer_freq
                     energy kws log)),
           snd (normalize_with_sapm sapm_effective_poa_global infer_freq
                  energy kws log))).
Proof.
  intros infer energy k.
  assert (Hnan : nmul k nan = nan) by (destruct k; reflexivity).
  split.
  - intros kws. apply normalize_with_pvwatts_smap; [exact Hnan|].
    intros x y. apply exact_div_scale_l.
  - intros M eff kws log. rewrite !normalize_with_sapm_run, smap_index.
    destruct (resolve_freq infer (index energy)) as [e|fr]; [reflexivity|].
    cbv zeta. destruct (sapm_dc_power eff _ _ log) as [[e|dc] log'];
      [reflexivity|].
    cbn [fst snd rbind]. f_equal.
    destruct (resample_sum dc fr) as [e|d]; [reflexivity|].
    unfold rmap, ok. cbn [rbind]. f_equal.
    apply series_binop_smap_l; [exact Hnan|].
    intros x y. apply exact_div_scale_l.
Qed.

(** X9. In exact arithmetic [normalize_with_pvwatts] is inversely
    proportional to the nameplate power: with [P_stc] multiplied by a
    non-zero [q], every returned row is divided by [q]. *)
Theorem normalized_energy_inverse_in_nameplate :
  forall (infer_freq : DatetimeIndex -> Result (option Freq))
         (energy : Series exact) (kws : PvwattsKws exact) (q : Qc),
    q <> Q2Qc 0 ->
    normalize_with_pvwatts infer_freq energy
      (with_P_stc (nmul (Some q) (kw_P_stc kws)) kws)
    = rmap (smap (fun x => ndiv x (Some q)))
        (normalize_with_pvwatts infer_freq energy kws).
Proof.
  intros infer energy kws q Hq.
  rewrite !normalize_with_pvwatts_run. unfold pvwatts_energy_dc.
  assert (Hdc : call_pvwatts_dc_power
                  (with_P_stc (nmul (Some q) (kw_P_stc kws)) kws)
                = smap (nmul (Some q)) (call_pvwatts_dc_power kws)).
  { unfold call_pvwatts_dc_power, with_P_stc. cbn [kw_poa_global kw_P_stc
      kw_T_cell kw_G_stc kw_T_stc kw_gamma_pdc].
    apply exact_pvwatts_nameplate. }
  unfold exact in *. rewrite Hdc.
  destruct (resolve_freq infer (index energy)) as [e|fr]; [reflexivity|].
  cbn [rbind].
  rewrite (resample_sum_smap (nmul (Some q)) _ fr (exact_sum_scale q)).
  destruct (resample_sum (call_pvwatts_dc_power kws) fr) as [e|d];
    [reflexivity|].
  unfold rmap, ok. cbn [rbind]. f_equal.
  apply series_binop_smap_r; [reflexivity|].
  intros x y. apply exact_div_scale_r. exact Hq.
Qed.

(** X9 on the exact day: twice the nameplate, half the ratio. *)
Lemma normalized_energy_inverse_in_nameplate_witness :
  Q2Qc 2 <> Q2Qc 0 /\
  normalize_with_pvwatts infer_freq_regular energy_exact_day
    (with_P_stc (nmul (Some (Q2Qc 2)) (kw_P_stc kws_exact_day)) kws_exact_day)
  = rmap (smap (fun x => ndiv x (Some (Q2Qc 2))))
      (normalize_with_pvwatts infer_freq_regular energy_exact_day kws_exact_day).
Proof.
  assert (H2 : Q2Qc 2 <> Q2Qc 0)
    by (intros E; apply (f_equal this) in E; discriminate E).
  split; [exact H2|].
  exact (normalized_energy_inverse_in_nameplate infer_freq_regular
           energy_exact_day kws_exact_day (Q2Qc 2) H2).
Defined.

Section SelfNormalization.

Context {num : Type} `{N : Numeric num}.

(** A resampled series carries the frequency it was resampled with. *)
Lemma resample_sum_freq (s d : Series num) (f : Freq) :
  resample_sum s (Some f) = inr d -> sfreq d = Some f.
Proof.
  unfold resample_sum. destruct (rows s) as [|[t0 x] l]; intros E;
    injection E as <-; reflexivity.
Qed.

Lemma index_equals_refl (l : list Timestamp) : index_equals l l = true.
Proof.
  apply index_equals_eq. reflexivity.
Qed.

(** Normalizing the expected DC energy itself divides every row by itself. *)
Lemma normalize_modeled_energy
    (infer_freq : DatetimeIndex -> Result (option Freq))
    (kws : PvwattsKws num) (f : Freq) (energy_dc : Series num) :
  resample_sum (call_pvwatts_dc_power kws) (Some f) = inr energy_dc ->
  normalize_with_pvwatts infer_freq energy_dc kws
  = inr (smap (fun x => ndiv x x) energy_dc).
Proof.
  intros Hd. unfold normalize_with_pvwatts.
  change (freq (index energy_dc)) with (sfreq energy_dc).
  rewrite (resample_sum_freq _ _ _ Hd). cbn [rbind ok]. rewrite Hd.
  cbn [rbind]. unfold ok. f_equal.
  unfold series_binop. rewrite index_equals_refl.
  unfold smap. f_equal.
  induction (rows energy_dc) as [|[t x] l IH]; simpl; [reflexivity|].
  rewrite IH. reflexivity.
Qed.

End SelfNormalization.

(** X10. Measured energy equal to the expected DC energy normalizes to 1: in
    exact arithmetic, when the modeled energy of every interval is defined
    and non-zero, feeding [normalize_with_pvwatts] the resampled modeled
    energy of its own keywords returns that series with every value replaced
    by 1. *)
Theorem modeled_energy_normalizes_to_one :
  forall (infer_freq : DatetimeIndex -> Result (option Freq))
         (kws : PvwattsKws exact) (f : Freq) (energy_dc : Series exact),
    resample_sum (call_pvwatts_dc_power kws) (Some f) = inr energy_dc ->
    (forall x, In x (values energy_dc) ->
               exists q, x = Some q /\ q <> Q2Qc 0) ->
    normalize_with_pvwatts infer_freq energy_dc kws
    = inr (smap (fun _ => Some (Q2Qc 1)) energy_dc).
Proof.
  intros infer kws f d Hd Hnz.
  rewrite (normalize_modeled_energy infer kws f d Hd).
  unfold ok, smap. do 2 f_equal. apply map_ext_in. intros [t x] Hin.
  cbn [fst snd]. f_equal.
  destruct (Hnz x) as (q & -> & Hq).
  { apply (in_map snd) in Hin. exact Hin. }
  simpl. destruct (Qc_eq_dec q (Q2Qc 0)); [contradiction|].
  f_equal. unfold Qcdiv. apply Qcmult_inv_r. assumption.
Qed.

(** X10 on the exact day: 7200 Wh of modeled energy, ratio 1. *)
Lemma modeled_energy_normalizes_to_one_witness :
  exists energy_dc,
    resample_sum (call_pvwatts_dc_power kws_exact_day) (Some (Tick daily))
      = inr energy_dc /\
    values energy_dc = [Some (Q2Qc 7200)] /\
    normalize_with_pvwatts infer_freq_regular energy_dc kws_exact_day
    = inr (smap (fun _ => Some (Q2Qc 1)) energy_dc).
Proof.
  destruct (resample_sum (call_pvwatts_dc_power kws_exact_day) (Some (Tick daily)))
    as [e|d] eqn:Hd; [vm_compute in Hd; discriminate Hd|].
  assert (Hv : values d = [Some (Q2Qc 7200)]).
  { vm_compute in Hd. injection Hd as <-. reflexivity. }
  exists d. split; [reflexivity|]. split; [exact Hv|].
  apply (modeled_energy_normalizes_to_one infer_freq_regular kws_exact_day
           (Tick daily) d Hd).
  intros x Hx. rewrite Hv in Hx. destruct Hx as [<- | []].
  eexists. split; [reflexivity|].
  intros E. apply (f_equal this) in E. discriminate E.
Defined.

Section Derating.

Local Open Scope Qc_scope.

Lemma Qc_zero_le_one : 0 <= 1.
Proof.
  apply Qcle_alt. discriminate.
Qed.

Lemma Qc_inv_nonneg (g : Qc) : 0 < g -> 0 <= / g.
Proof.
  intros Hg. apply (Qcmult_lt_0_le_reg_r _ _ g Hg).
  rewrite Qcmult_0_l, Qcmult_inv_l by (apply not_eq_sym, Qclt_not_eq; exact Hg).
  exact Qc_zero_le_one.
Qed.

Lemma Qc_mult_nonneg (a b : Qc) : 0 <= a -> 0 <= b -> 0 <= a * b.
Proof.
  intros Ha Hb. rewrite <- (Qcmult_0_l b).
  apply Qcmult_le_compat_r; assumption.
Qed.

(** A non-positive coefficient and a cell no cooler than the reference give a
    factor of at most one, and a non-negative power is not raised by it. *)
Lemma exact_derated (p g t0 c a b : Qc) :
  0 <= p -> 0 < g -> c <= 0 -> 0 <= a -> t0 <= b ->
  exact_le
    (nmul (ndiv (nmul (Some p) (Some a)) (Some g))
          (nadd (of_int 1) (nmul (Some c) (nsub (Some b) (Some t0)))))
    (ndiv (nmul (Some p) (Some a)) (Some g)).
Proof.
  intros Hp Hg Hc Ha Hb. simpl.
  destruct (Qc_eq_dec g (Q2Qc 0)) as [E|_].
  - exfalso. apply (Qclt_not_eq _ _ Hg). symmetry. exact E.
  - simpl. change (Q2Qc (inject_Z 1)) with 1.
    assert (Hbase : 0 <= p * a / g).
    { unfold Qcdiv. apply Qc_mult_nonneg; [apply Qc_mult_nonneg; assumption|].
      apply Qc_inv_nonneg. exact Hg. }
    assert (Hd : 0 <= b - t0).
    { unfold Qcminus. apply (proj1 (Qcle_minus_iff t0 b)). exact Hb. }
    assert (Hcd : c * (b - t0) <= 0).
    { rewrite <- (Qcmult_0_l (b - t0)). apply Qcmult_le_compat_r; assumption. }
    assert (Hf : 1 + c * (b - t0) <= 1).
    { rewrite <- (Qcplus_0_r 1) at 2.
      apply Qcplus_le_compat; [apply Qcle_refl | exact Hcd]. }
    rewrite <- (Qcmult_1_l (p * a / g)) at 2.
    rewrite (Qcmult_comm (p * a / g)).
    apply Qcmult_le_compat_r; assumption.
Qed.

Lemma zip_with_below (f : exact -> exact -> exact) (h : exact -> exact)
    (a b : list (Timestamp * exact)) :
  map fst a = map fst b ->
  (forall x y, In x (map snd a) -> In y (map snd b) -> exact_le (f x y) (h x)) ->
  Forall2 exact_le (map snd (zip_with f a b))
    (map snd (map (fun r => (fst r, h (snd r))) a)).
Proof.
  revert b; induction a as [|[t x] a IH]; intros [|[u y] b] E H;
    simpl in *; try discriminate; [constructor|].
  injection E as _ E. constructor; [apply H; auto|].
  apply IH; [exact E|]. intros; apply H; auto.
Qed.

End Derating.

(** X11. In exact arithmetic the temperature correction derates a warm
    array: with non-negative nameplate power and irradiance, positive
    [G_stc], a non-positive [gamma_pdc] and a cell temperature, indexed like
    the irradiance, that is nowhere below [T_stc], every row of the corrected
    power is at most the uncorrected row. *)
Theorem pvwatts_derates_when_warm :
  forall (poa_global T_cell : Series exact) (p g t0 c : Qc),
    Qcle (Q2Qc 0) p -> Qclt (Q2Qc 0) g -> Qcle c (Q2Qc 0) ->
    stamps (index T_cell) = stamps (index poa_global) ->
    (forall x, In x (values poa_global) -> exists a, x = Some a /\ Qcle (Q2Qc 0) a) ->
    (forall y, In y (values T_cell) -> exists b, y = Some b /\ Qcle t0 b) ->
    Forall2 exact_le
      (values (pvwatts_dc_power poa_global (Some p) (Some T_cell) (Some g)
                 (Some t0) (Some (Some c))))
      (values (pvwatts_dc_power poa_global (Some p) None (Some g) (Some t0)
                 None)).
Proof.
  intros poa Tc p g t0 c Hp Hg Hc E Hpoa HTc.
  rewrite pvwatts_active_aligned by exact E. rewrite pvwatts_base.
  unfold values, smap. cbn [rows].
  apply (zip_with_below
           (fun x y => nmul (ndiv (nmul (Some p) x) (Some g))
                         (nadd (of_int 1) (nmul (Some c) (nsub y (Some t0)))))
           (fun x => ndiv (nmul (Some p) x) (Some g))).
  - symmetry. exact E.
  - intros x y Hx Hy.
    destruct (Hpoa x Hx) as (a & -> & Ha).
    destruct (HTc y Hy) as (b & -> & Hb).
    apply exact_derated; assumption.
Qed.

Lemma constant_series_values {num : Type} `{N : Numeric num}
    (t0 step : Z) (n : nat) (x : num) (f : option Freq) (y : num) :
  In y (values (constant_series t0 step n x f)) -> y = x.
Proof.
  unfold values, constant_series. cbn [rows]. rewrite map_map.
  intros H. apply in_map_iff in H. destruct H as (i & <- & _). reflexivity.
Qed.

(** X11 on the exact day with the cell at 35 degrees and a coefficient of
    -0.004. *)
Lemma pvwatts_derates_when_warm_witness :
  Forall2 exact_le
    (values (pvwatts_dc_power poa_exact_day (Some (Q2Qc 300))
               (Some T_cell_exact_warm) (Some (Q2Qc 1000)) (Some (Q2Qc 25))
               (Some (Some (Q2Qc (-4 # 1000))))))
    (values (pvwatts_dc_power poa_exact_day (Some (Q2Qc 300)) None
               (Some (Q2Qc 1000)) (Some (Q2Qc 25)) None)).
Proof.
  apply pvwatts_derates_when_warm.
  - apply Qcle_alt. discriminate.
  - apply Qclt_alt. reflexivity.
  - apply Qcle_alt. discriminate.
  - reflexivity.
  - intros x Hx. apply constant_series_values in Hx. subst x.
    eexists. split; [reflexivity|]. apply Qcle_alt. discriminate.
  - intros y Hy. apply constant_series_values in Hy. subst y.
    eexists. split; [reflexivity|]. apply Qcle_alt. discriminate.
Defined.

(** ** What a returned ratio is made of *)

Section ResampleFacts.

Context {num : Type} `{N : Numeric num}.

(** The rows of a resampled series: one per bin label, holding the sum of
    the bin. *)
Lemma resample_sum_rows (s d : Series num) (f : Freq) :
  resample_sum s (Some f) = inr d ->
  exists labels,
    rows d = map (fun b => (b, sum_skipna (bin_values b (period f) (rows s))))
               labels /\
    (forall t, In t labels ->
               exists t0 i,
                 In t0 (stamps (index s)) /\
                 t = bin_of (day * (t0 / day)) (period f) t0
                     + period f * Z.of_nat i).
Proof.
  unfold resample_sum. destruct (rows s) as [|[t0 x] l] eqn:Hrows.
  - intros E. injection E as <-. exists []. split; [reflexivity|].
    intros t [].
  - intros E. injection E as <-. eexists. split; [reflexivity|].
    intros t Ht. unfold bin_labels in Ht. apply in_map_iff in Ht.
    destruct Ht as (i & <- & _).
    assert (Hmin : forall (l' : list Z) (a : Z),
               list_min a l' = a \/ In (list_min a l') l').
    { unfold list_min. induction l' as [|b l' IH]; intros a; simpl; [auto|].
      destruct (IH (Z.min a b)) as [E|Hin]; [|auto].
      rewrite E. destruct (Z.min_spec a b) as [[_ ->]|[_ ->]]; auto. }
    exists (list_min t0 (map fst ((t0, x) :: l))), i.
    split; [|reflexivity].
    change (stamps (index s)) with (map fst (rows s)). rewrite Hrows.
    destruct (Hmin (map fst ((t0, x) :: l)) t0) as [E|Hin].
    + rewrite E. left; reflexivity.
    + exact Hin.
Qed.

Lemma resample_sum_at (s d : Series num) (f : Freq) (t : Timestamp) :
  resample_sum s (Some f) = inr d ->
  In t (stamps (index d)) ->
  at_ d t = sum_skipna (bin_values t (period f) (rows s)).
Proof.
  intros Hd Hin. destruct (resample_sum_rows s d f Hd) as (labels & Hrows & _).
  unfold at_. simpl in Hin. rewrite Hrows in *.
  rewrite map_map in Hin. simpl in Hin. rewrite map_id in Hin.
  apply (lookup_tabulate
           (fun b => sum_skipna (bin_values b (period f) (rows s)))).
  exact Hin.
Qed.

(** When the period divides the day, every bin label is a multiple of the
    period. *)
Lemma resample_sum_on_grid (s d : Series num) (f : Freq) (t : Timestamp) :
  (period f | day) ->
  resample_sum s (Some f) = inr d ->
  In t (stamps (index d)) ->
  t mod period f = 0.
Proof.
  intros [m Hm] Hd Hin.
  destruct (resample_sum_rows s d f Hd) as (labels & Hrows & Hlab).
  simpl in Hin. rewrite Hrows, map_map in Hin. simpl in Hin.
  rewrite map_id in Hin.
  destruct (Hlab t Hin) as (t0 & i & _ & ->).
  unfold bin_of. rewrite Hm.
  set (p := period f). set (k := t0 / (m * p)).
  replace (m * p * k + p * ((t0 - m * p * k) / p) + p * Z.of_nat i)
    with ((m * k + (t0 - m * p * k) / p + Z.of_nat i) * p) by ring.
  apply Z.mod_mul. unfold p. destruct f; simpl; discriminate.
Qed.

End ResampleFacts.

(** X12. A ratio is made of the samples of its own interval only: when the
    frequency resolves to a positive fixed-period offset [f], and [t] is a
    timestamp of the energy series and of the resampled DC energy of two
    modeled powers that have the same rows stamped in [t, t + period), both
    calls return and their ratios at [t] are equal, for both entry points. *)
Theorem ratio_depends_on_interval_samples_only :
  forall (num : Type) (N : Numeric num)
         (infer_freq : DatetimeIndex -> Result (option Freq))
         (energy : Series num) (f : Freq) (t : Timestamp),
    resolve_freq infer_freq (index energy) = inr (Some f) ->
    In t (stamps (index energy)) ->
    (forall (kws1 kws2 : PvwattsKws num) (energy_dc1 energy_dc2 : Series num),
        resample_sum (call_pvwatts_dc_power kws1) (Some f) = inr energy_dc1 ->
        resample_sum (call_pvwatts_dc_power kws2) (Some f) = inr energy_dc2 ->
        In t (stamps (index energy_dc1)) ->
        In t (stamps (index energy_dc2)) ->
        bin_values t (period f) (rows (call_pvwatts_dc_power kws1))
        = bin_values t (period f) (rows (call_pvwatts_dc_power kws2)) ->
        exists out1 out2,
          normalize_with_pvwatts infer_freq energy kws1 = inr out1 /\
          normalize_with_pvwatts infer_freq energy kws2 = inr out2 /\
          at_ out1 t = at_ out2 t) /\
    (forall (ModuleParameters : Type) sapm_effective_poa_global
            (kws1 kws2 : SapmKws num ModuleParameters) log
            dc_power1 dc_power2 log1 log2 (energy_dc1 energy_dc2 : Series num),
        sapm_dc_power sapm_effective_poa_global (kw_pvlib_pvsystem kws1)
          (kw_sapm_poa_global kws1) log = (inr dc_power1, log1) ->
        sapm_dc_power sapm_effective_poa_global (kw_pvlib_pvsystem kws2)
          (kw_sapm_poa_global kws2) log = (inr dc_power2, log2) ->
        resample_sum dc_power1 (Some f) = inr energy_dc1 ->
        resample_sum dc_power2 (Some f) = inr energy_dc2 ->
        In t (stamps (index energy_dc1)) ->
        In t (stamps (index energy_dc2)) ->
        bin_values t (period f) (rows dc_power1)
        = bin_values t (period f) (rows dc_power2) ->
        exists out1 out2,
          normalize_with_sapm sapm_effective_poa_global infer_freq energy
            kws1 log = (inr out1, log1) /\
          normalize_with_sapm sapm_effective_poa_global infer_freq energy
            kws2 log = (inr out2, log2) /\
          at_ out1 t = at_ out2 t).
Proof.
  intros num N infer energy f t Hf Ht.
  assert (Hsame : forall s1 s2 d1 d2,
             resample_sum s1 (Some f) = inr d1 ->
             resample_sum s2 (Some f) = inr d2 ->
             In t (stamps (index d1)) -> In t (stamps (index d2)) ->
             bin_values t (period f) (rows s1)
             = bin_values t (period f) (rows s2) ->
             at_ (series_binop ndiv energy d1) t
             = at_ (series_binop ndiv energy d2) t).
  { intros s1 s2 d1 d2 H1 H2 Hin1 Hin2 Hbin.
    rewrite !series_binop_at by (apply series_binop_members; auto).
    rewrite (resample_sum_at _ _ _ _ H1 Hin1), (resample_sum_at _ _ _ _ H2 Hin2).
    rewrite Hbin. reflexivity. }
  split.
  - intros kws1 kws2 d1 d2 H1 H2 Hin1 Hin2 Hbin.
    exists (series_binop ndiv energy d1), (series_binop ndiv energy d2).
    split; [|split].
    + rewrite normalize_with_pvwatts_run. unfold pvwatts_energy_dc.
      rewrite Hf. cbv beta iota delta [rbind]. rewrite H1. reflexivity.
    + rewrite normalize_with_pvwatts_run. unfold pvwatts_energy_dc.
      rewrite Hf. cbv beta iota delta [rbind]. rewrite H2. reflexivity.
    + exact (Hsame _ _ d1 d2 H1 H2 Hin1 Hin2 Hbin).
  - intros M eff kws1 kws2 log dc1 dc2 log1 log2 d1 d2
           Hdc1 Hdc2 H1 H2 Hin1 Hin2 Hbin.
    exists (series_binop ndiv energy d1), (series_binop ndiv energy d2).
    split; [|split].
    + rewrite normalize_with_sapm_run, Hf, Hdc1.
      cbv beta iota zeta delta [rbind fst snd]. rewrite H1. reflexivity.
    + rewrite normalize_with_sapm_run, Hf, Hdc2.
      cbv beta iota zeta delta [rbind fst snd]. rewrite H2. reflexivity.
    + exact (Hsame _ _ d1 d2 H1 H2 Hin1 Hin2 Hbin).
Qed.

(** X12 on the first day of energy against one day and against three days of
    hourly irradiance: the two further days change nothing on the first. *)
Lemma ratio_depends_on_interval_samples_only_witness :
  resolve_freq infer_freq_regular (index energy_two_days)
    = inr (Some (Tick daily)) /\
  In 0 (stamps (index energy_two_days)) /\
  bin_values 0 (period (Tick daily)) (rows (call_pvwatts_dc_power kws_one_day))
  = bin_values 0 (period (Tick daily))
      (rows (call_pvwatts_dc_power kws_three_days)) /\
  exists out1 out2,
    normalize_with_pvwatts infer_freq_regular energy_two_days kws_one_day
      = inr out1 /\
    normalize_with_pvwatts infer_freq_regular energy_two_days kws_three_days
      = inr out2 /\
    at_ out1 0 = at_ out2 0.
Proof.
  assert (Hf : resolve_freq infer_freq_regular (index energy_two_days)
               = inr (Some (Tick daily))) by reflexivity.
  assert (Ht : In 0 (stamps (index energy_two_days))) by (left; reflexivity).
  assert (Hbin : bin_values 0 (period (Tick daily))
                   (rows (call_pvwatts_dc_power kws_one_day))
                 = bin_values 0 (period (Tick daily))
                     (rows (call_pvwatts_dc_power kws_three_days)))
    by (vm_compute; reflexivity).
  split; [exact Hf|]. split; [exact Ht|]. split; [exact Hbin|].
  destruct (resample_sum (call_pvwatts_dc_power kws_one_day)
              (Some (Tick daily))) as [e|d1] eqn:H1;
    [vm_compute in H1; discriminate H1|].
  destruct (resample_sum (call_pvwatts_dc_power kws_three_days)
              (Some (Tick daily))) as [e|d2] eqn:H2;
    [vm_compute in H2; discriminate H2|].
  apply (proj1 (ratio_depends_on_interval_samples_only float float64
                  infer_freq_regular energy_two_days (Tick daily) 0 Hf Ht)
           kws_one_day kws_three_days d1 d2 H1 H2).
  - vm_compute in H1. injection H1 as <-. left; reflexivity.
  - vm_compute in H2. injection H2 as <-. left; reflexivity.
  - exact Hbin.
Defined.

(** X13. Energy stamped off the resampling grid is never matched: when the
    frequency resolves to a period that divides the day, the bins are
    labelled at multiples of the period, so an energy timestamp that is not
    such a multiple gets a missing ratio from both entry points, whatever the
    modeled power. *)
Theorem off_grid_energy_is_missing :
  forall (num : Type) (N : Numeric num) (NA : NanAbsorbing num)
         (infer_freq : DatetimeIndex -> Result (option Freq))
         (energy : Series num) (f : Freq) (t : Timestamp),
    resolve_freq infer_freq (index energy) = inr (Some f) ->
    (period f | day) ->
    In t (stamps (index energy)) ->
    t mod period f <> 0 ->
    (forall kws : PvwattsKws num,
        exists out,
          normalize_with_pvwatts infer_freq energy kws = inr out /\
          at_ out t = nan) /\
    (forall (ModuleParameters : Type) sapm_effective_poa_global
            (kws : SapmKws num ModuleParameters) log dc_power log',
        sapm_dc_power sapm_effective_poa_global (kw_pvlib_pvsystem kws)
          (kw_sapm_poa_global kws) log = (inr dc_power, log') ->
        exists out,
          normalize_with_sapm sapm_effective_poa_global infer_freq energy kws log
            = (inr out, log') /\
          at_ out t = nan).
Proof.
  intros num N NA infer energy f t Hf Hdiv Ht Hoff.
  assert (Hmiss : forall s d, resample_sum s (Some f) = inr d ->
                              at_ (series_binop ndiv energy d) t = nan).
  { intros s d Hd. apply series_div_missing.
    - apply series_binop_members. auto.
    - intros [_ Hin]. apply Hoff.
      exact (resample_sum_on_grid s d f t Hdiv Hd Hin). }
  split.
  - intros kws.
    destruct (resample_sum_total (call_pvwatts_dc_power kws) f) as [d Hd].
    exists (series_binop ndiv energy d). split; [|exact (Hmiss _ d Hd)].
    rewrite normalize_with_pvwatts_run. unfold pvwatts_energy_dc.
    rewrite Hf. cbv beta iota delta [rbind]. rewrite Hd. reflexivity.
  - intros M eff kws log dc log' Hdc.
    destruct (resample_sum_total dc f) as [d Hd].
    exists (series_binop ndiv energy d). split; [|exact (Hmiss _ d Hd)].
    rewrite normalize_with_sapm_run, Hf, Hdc.
    cbv beta iota zeta delta [rbind fst snd]. rewrite Hd. reflexivity.
Qed.

(** X13 on energy stamped at noon: no day is matched. *)
Lemma off_grid_energy_is_missing_witness :
  resolve_freq infer_freq_regular (index energy_at_noon)
    = inr (Some (Tick daily)) /\
  (period (Tick daily) | day) /\
  In 43200 (stamps (index energy_at_noon)) /\
  43200 mod period (Tick daily) <> 0 /\
  exists out,
    normalize_with_pvwatts infer_freq_regular energy_at_noon kws_three_days
      = inr out /\
    at_ out 43200 = PrimFloat.nan.
Proof.
  assert (Hf : resolve_freq infer_freq_regular (index energy_at_noon)
               = inr (Some (Tick daily))) by reflexivity.
  assert (Hdiv : (period (Tick daily) | day)) by (exists 1; reflexivity).
  assert (Ht : In 43200 (stamps (index energy_at_noon)))
    by (left; reflexivity).
  assert (Hoff : 43200 mod period (Tick daily) <> 0) by discriminate.
  split; [exact Hf|]. split; [exact Hdiv|]. split; [exact Ht|].
  split; [exact Hoff|].
  exact (proj1 (off_grid_energy_is_missing float float64 float64_nan_absorbing
                  infer_freq_regular energy_at_noon (Tick daily) 43200
                  Hf Hdiv Ht Hoff) kws_three_days).
Defined.

Section BinFacts.

Context {num : Type} `{N : Numeric num}.

Lemma list_min_le (l : list Z) (a : Z) :
  list_min a l <= a /\ forall t, In t l -> list_min a l <= t.
Proof.
  unfold list_min. revert a. induction l as [|b l IH]; intros a; simpl.
  - split; [lia | intros t []].
  - destruct (IH (Z.min a b)) as [H1 H2]. split; [lia|].
    intros t [<- | Ht]; [lia | auto].
Qed.

Lemma list_max_ge (l : list Z) (a : Z) :
  a <= list_max a l /\ forall t, In t l -> t <= list_max a l.
Proof.
  unfold list_max. revert a. induction l as [|b l IH]; intros a; simpl.
  - split; [lia | intros t []].
  - destruct (IH (Z.max a b)) as [H1 H2]. split; [lia|].
    intros t [<- | Ht]; [lia | auto].
Qed.

Lemma bin_of_bounds (origin p t : Z) :
  0 < p -> bin_of origin p t <= t < bin_of origin p t + p.
Proof.
  intros Hp. unfold bin_of.
  pose proof (Z.mul_div_le (t - origin) p Hp).
  pose proof (Z.mul_succ_div_gt (t - origin) p Hp).
  lia.
Qed.

(** The labels of a resampled series, from the bin of its earliest row to
    the bin of its latest. *)
Lemma resample_sum_labels (s d : Series num) (f : Freq) (t0 : Timestamp)
    (x : num) (l : list (Timestamp * num)) :
  rows s = (t0, x) :: l ->
  resample_sum s (Some f) = inr d ->
  let ts := stamps (index s) in
  let origin := day * (list_min t0 ts / day) in
  stamps (index d)
  = bin_labels (bin_of origin (period f) (list_min t0 ts))
      (bin_of origin (period f) (list_max t0 ts)) (period f).
Proof.
  intros Hrows Hd. unfold resample_sum in Hd.
  change (stamps (index s)) with (map fst (rows s)).
  rewrite Hrows in *. injection Hd as <-.
  cbv zeta. cbn [index stamps rows]. rewrite map_map. cbn [fst].
  apply map_id.
Qed.

(** A timestamp is a label of the resampled series exactly when it is a
    whole number of periods after the first bin, up to the last bin. *)
Lemma resample_sum_label_iff (s d : Series num) (f : Freq) (t0 : Timestamp)
    (x : num) (l : list (Timestamp * num)) (b : Z) :
  rows s = (t0, x) :: l ->
  resample_sum s (Some f) = inr d ->
  let ts := stamps (index s) in
  let p := period f in
  let origin := day * (list_min t0 ts / day) in
  let qf := (list_min t0 ts - origin) / p in
  let ql := (list_max t0 ts - origin) / p in
  In b (stamps (index d)) <->
  exists i, 0 <= i <= ql - qf /\ b = origin + p * qf + p * i.
Proof.
  intros Hrows Hd ts p origin qf ql.
  assert (Hp : 0 < p) by (unfold p; destruct f; reflexivity).
  pose proof (resample_sum_labels s d f t0 x l Hrows Hd) as Hlab.
  cbv zeta in Hlab. fold ts p origin in Hlab.
  assert (Hspan : (bin_of origin p (list_max t0 ts)
                   - bin_of origin p (list_min t0 ts)) / p = ql - qf).
  { unfold bin_of. fold qf ql.
    replace (origin + p * ql - (origin + p * qf)) with ((ql - qf) * p) by ring.
    apply Z.div_mul. lia. }
  rewrite Hlab. unfold bin_labels. rewrite Hspan, in_map_iff.
  unfold bin_of. fold qf. split.
  - intros (n & <- & Hn). apply in_seq in Hn. exists (Z.of_nat n).
    split; [lia | reflexivity].
  - intros (i & Hi & ->). exists (Z.to_nat i). split.
    + rewrite Z2Nat.id by lia. reflexivity.
    + apply in_seq. lia.
Qed.

(** A multiple of the period that lies between two rows of a series is a
    label of the resampled series, when the period divides the day. *)
Lemma resample_sum_covers (s d : Series num) (f : Freq) (t sa sb : Timestamp) :
  (period f | day) ->
  resample_sum s (Some f) = inr d ->
  In sa (stamps (index s)) -> In sb (stamps (index s)) ->
  sa <= t <= sb ->
  t mod period f = 0 ->
  In t (stamps (index d)).
Proof.
  intros [m Hm] Hd Hsa Hsb Hrange Hgrid.
  assert (Hp : 0 < period f) by (destruct f; reflexivity).
  destruct (rows s) as [|[t0 x] l] eqn:Hrows.
  { change (stamps (index s)) with (map fst (rows s)) in Hsa.
    rewrite Hrows in Hsa. destruct Hsa. }
  apply (resample_sum_label_iff s d f t0 x l t Hrows Hd).
  set (ts := stamps (index s)) in *.
  set (first := list_min t0 ts) in *.
  set (last := list_max t0 ts) in *.
  set (p := period f) in *.
  set (origin := day * (first / day)) in *.
  set (qf := (first - origin) / p).
  set (ql := (last - origin) / p).
  assert (Hfirst : first <= sa) by (apply (proj2 (list_min_le ts t0)); exact Hsa).
  assert (Hlast : sb <= last) by (apply (proj2 (list_max_ge ts t0)); exact Hsb).
  pose proof (bin_of_bounds origin p first Hp) as Hbf.
  pose proof (bin_of_bounds origin p last Hp) as Hbl.
  unfold bin_of in Hbf, Hbl. fold qf in Hbf. fold ql in Hbl.
  apply Z.mod_divide in Hgrid; [|lia]. destruct Hgrid as [c Hc].
  assert (Ho : origin = p * (m * (first / day))) by (unfold origin; rewrite Hm; ring).
  set (k := m * (first / day)) in *.
  exists (c - k - qf). unfold Timestamp in *. split; [nia | nia].
Qed.

End BinFacts.

(** X15. Energy stamped on the resampling grid inside the modeled period is
    always matched: when the frequency resolves to a positive fixed-period
    offset whose period divides the day, an energy timestamp that is a
    multiple of the period and lies between two rows of the modeled DC power
    is a timestamp of the resampled DC energy, and both entry points return
    at it the energy over the DC energy of that timestamp. *)
Theorem on_grid_energy_within_model_is_matched :
  forall (num : Type) (N : Numeric num)
         (infer_freq : DatetimeIndex -> Result (option Freq))
         (energy : Series num) (f : Freq) (t : Timestamp),
    resolve_freq infer_freq (index energy) = inr (Some f) ->
    (period f | day) ->
    In t (stamps (index energy)) ->
    t mod period f = 0 ->
    (forall (kws : PvwattsKws num) (sa sb : Timestamp),
        In sa (stamps (index (call_pvwatts_dc_power kws))) ->
        In sb (stamps (index (call_pvwatts_dc_power kws))) ->
        sa <= t <= sb ->
        exists energy_dc out,
          resample_sum (call_pvwatts_dc_power kws) (Some f) = inr energy_dc /\
          normalize_with_pvwatts infer_freq energy kws = inr out /\
          In t (stamps (index energy_dc)) /\
          at_ out t = ndiv (at_ energy t) (at_ energy_dc t)) /\
    (forall (ModuleParameters : Type) sapm_effective_poa_global
            (kws : SapmKws num ModuleParameters) log dc_power log'
            (sa sb : Timestamp),
        sapm_dc_power sapm_effective_poa_global (kw_pvlib_pvsystem kws)
          (kw_sapm_poa_global kws) log = (inr dc_power, log') ->
        In sa (stamps (index dc_power)) ->
        In sb (stamps (index dc_power)) ->
        sa <= t <= sb ->
        exists energy_dc out,
          resample_sum dc_power (Some f) = inr energy_dc /\
          normalize_with_sapm sapm_effective_poa_global infer_freq energy kws log
            = (inr out, log') /\
          In t (stamps (index energy_dc)) /\
          at_ out t = ndiv (at_ energy t) (at_ energy_dc t)).
Proof.
  intros num N infer energy f t Hf Hdiv Ht Hgrid.
  assert (Hrow : forall s d sa sb,
             resample_sum s (Some f) = inr d ->
             In sa (stamps (index s)) -> In sb (stamps (index s)) ->
             sa <= t <= sb ->
             In t (stamps (index d)) /\
             at_ (series_binop ndiv energy d) t
             = ndiv (at_ energy t) (at_ d t)).
  { intros s d sa sb Hd Hsa Hsb Hrange.
    assert (Hin : In t (stamps (index d)))
      by exact (resample_sum_covers s d f t sa sb Hdiv Hd Hsa Hsb Hrange Hgrid).
    split; [exact Hin|].
    apply series_binop_at. apply series_binop_members. auto. }
  split.
  - intros kws sa sb Hsa Hsb Hrange.
    destruct (resample_sum_total (call_pvwatts_dc_power kws) f) as [d Hd].
    exists d, (series_binop ndiv energy d). split; [exact Hd|]. split.
    + rewrite normalize_with_pvwatts_run. unfold pvwatts_energy_dc.
      rewrite Hf. cbv beta iota delta [rbind]. rewrite Hd. reflexivity.
    + exact (Hrow _ d sa sb Hd Hsa Hsb Hrange).
  - intros M eff kws log dc log' sa sb Hdc Hsa Hsb Hrange.
    destruct (resample_sum_total dc f) as [d Hd].
    exists d, (series_binop ndiv energy d). split; [exact Hd|]. split.
    + rewrite normalize_with_sapm_run, Hf, Hdc.
      cbv beta iota zeta delta [rbind fst snd]. rewrite Hd. reflexivity.
    + exact (Hrow _ d sa sb Hd Hsa Hsb Hrange).
Qed.

(** X15 on the second of two days, which the three days of hourly power
    cover. *)
Lemma on_grid_energy_within_model_is_matched_witness :
  resolve_freq infer_freq_regular (index energy_two_days)
    = inr (Some (Tick daily)) /\
  (period (Tick daily) | day) /\
  In 86400 (stamps (index energy_two_days)) /\
  86400 mod period (Tick daily) = 0 /\
  In 86400 (stamps (index (call_pvwatts_dc_power kws_three_days))) /\
  exists energy_dc out,
    resample_sum (call_pvwatts_dc_power kws_three_days) (Some (Tick daily))
      = inr energy_dc /\
    normalize_with_pvwatts infer_freq_regular energy_two_days kws_three_days
      = inr out /\
    In 86400 (stamps (index energy_dc)) /\
    at_ out 86400 = ndiv (at_ energy_two_days 86400) (at_ energy_dc 86400).
Proof.
  assert (Hf : resolve_freq infer_freq_regular (index energy_two_days)
               = inr (Some (Tick daily))) by reflexivity.
  assert (Hdiv : (period (Tick daily) | day)) by (exists 1; reflexivity).
  assert (Ht : In 86400 (stamps (index energy_two_days)))
    by (right; left; reflexivity).
  assert (Hgrid : 86400 mod period (Tick daily) = 0) by reflexivity.
  assert (Hs : In 86400 (stamps (index (call_pvwatts_dc_power kws_three_days)))).
  { unfold call_pvwatts_dc_power, pvwatts_dc_power.
    cbn [kw_T_cell kws_three_days kw_gamma_pdc kw_poa_global].
    rewrite !smap_stamps.
    apply (in_map fst (rows poa_three_days) (86400, 1000%float)).
    apply (in_map (fun i => (0 + 3600 * Z.of_nat i, 1000%float))
             (seq 0 72) 24%nat).
    apply in_seq. lia. }
  split; [exact Hf|]. split; [exact Hdiv|]. split; [exact Ht|].
  split; [exact Hgrid|]. split; [exact Hs|].
  apply (proj1 (on_grid_energy_within_model_is_matched float float64
                  infer_freq_regular energy_two_days (Tick daily) 86400
                  Hf Hdiv Ht Hgrid) kws_three_days 86400 86400 Hs Hs).
  lia.
Defined.

(** X16. An irradiance series without rows is not an error: with the
    frequency resolved and no temperature correction,
    [normalize_with_pvwatts] returns exactly the timestamps of the energy
    series, every one with a missing ratio. *)
Theorem empty_irradiance_gives_missing_ratios :
  forall (num : Type) (N : Numeric num) (NA : NanAbsorbing num)
         (infer_freq : DatetimeIndex -> Result (option Freq))
         (energy : Series num) (f : Freq) (kws : PvwattsKws num),
    resolve_freq infer_freq (index energy) = inr (Some f) ->
    rows (kw_poa_global kws) = [] ->
    kw_T_cell kws = None \/ kw_gamma_pdc kws = None ->
    exists out,
      normalize_with_pvwatts infer_freq energy kws = inr out /\
      (forall t, In t (stamps (index out)) <-> In t (stamps (index energy))) /\
      (forall t, In t (stamps (index energy)) -> at_ out t = nan).
Proof.
  intros num N NA infer energy f kws Hf Hrows Hoff.
  assert (Hdc : rows (call_pvwatts_dc_power kws) = []).
  { unfold call_pvwatts_dc_power. rewrite pvwatts_inactive by exact Hoff.
    unfold smap. cbn [rows]. rewrite Hrows. reflexivity. }
  assert (Hd : resample_sum (call_pvwatts_dc_power kws) (Some f)
               = inr {| rows := []; sfreq := Some f |}).
  { unfold resample_sum. rewrite Hdc. reflexivity. }
  exists (series_binop ndiv energy {| rows := []; sfreq := Some f |}).
  split; [|split].
  - rewrite normalize_with_pvwatts_run. unfold pvwatts_energy_dc.
    rewrite Hf. cbv beta iota delta [rbind]. rewrite Hd. reflexivity.
  - intros t. rewrite series_binop_members. simpl. tauto.
  - intros t Ht. apply series_div_missing.
    + apply series_binop_members. auto.
    + intros [_ []].
Qed.

(** X16 on two days of energy. *)
Lemma empty_irradiance_gives_missing_ratios_witness :
  resolve_freq infer_freq_regular (index energy_two_days)
    = inr (Some (Tick daily)) /\
  rows (kw_poa_global kws_no_irradiance) = [] /\
  exists out,
    normalize_with_pvwatts infer_freq_regular energy_two_days kws_no_irradiance
      = inr out /\
    rows out = [(0, PrimFloat.nan); (86400, PrimFloat.nan)].
Proof.
  split; [reflexivity|]. split; [reflexivity|].
  destruct (empty_irradiance_gives_missing_ratios float float64
              float64_nan_absorbing infer_freq_regular energy_two_days
              (Tick daily) kws_no_irradiance eq_refl eq_refl
              (or_introl eq_refl)) as (out & Hout & _).
  exists out. split; [exact Hout|].
  vm_compute in Hout. injection Hout as <-. reflexivity.
Defined.
